(** * Option analytics of the Polygon options viewer

    A shallow embedding of the numerical core of the repository:
    - [utils/data_formatter.py]: bid/ask estimation, moneyness, strike
      window, chain aggregation, sentiment label, spread validation;
    - [app.py]: the dashboard's own strike window, put/call ratio and
      sentiment blocks, and the credit spread calculator;
    - [utils/polygon_api.py]: the Black-Scholes price and Greeks and the
      bid/ask estimate written inline in the S3 chain loader.

    Numbers.  Python floats are modelled by exact numbers: rationals [Q]
    for the code that only adds, multiplies, divides, compares and rounds
    (so that it evaluates), reals [R] for the Black-Scholes formulas,
    which need [ln], [exp], [sqrt] and the normal distribution.  Binary
    rounding error, overflow and signed zeros are outside the model; NaN
    and the infinities that numpy produces are inside it (type
    [npfloat]). *)

From Stdlib Require Import ZArith QArith Qround Qabs Qminmax List Sorted Bool Lia Lqa.
From Stdlib Require Reals Factorial ROrderedType Lra Ascii String.
Import ListNotations.

(** ** Python's numeric built-ins on exact rationals *)

Module PyNum.

Open Scope Q_scope.

Definition Qltb (x y : Q) : bool := negb (Qle_bool y x).

(** [max(a, b)] returns [a] unless [b > a]. *)
Definition py_max (a b : Q) : Q := if Qltb a b then b else a.

(** [min(a, b)] returns [a] unless [b < a]. *)
Definition py_min (a b : Q) : Q := if Qltb b a then b else a.

(** Nearest integer, ties to the even one. *)
Definition round_half_even (x : Q) : Z :=
  let f := Qfloor x in
  match Qcompare (x - inject_Z f) (1 # 2) with
  | Lt => f
  | Gt => (f + 1)%Z
  | Eq => if Z.even f then f else (f + 1)%Z
  end.

Definition pow10 (n : nat) : Q := inject_Z (10 ^ Z.of_nat n).

(** [round(x, ndigits)]. *)
Definition py_round (x : Q) (ndigits : nat) : Q :=
  inject_Z (round_half_even (x * pow10 ndigits)) / pow10 ndigits.

Lemma Qltb_lt (x y : Q) : Qltb x y = true <-> x < y.
Proof.
  unfold Qltb. rewrite negb_true_iff. split; intro H.
  - apply Qnot_le_lt. intro L. apply Qle_bool_iff in L. congruence.
  - destruct (Qle_bool y x) eqn:E; auto.
    apply Qle_bool_iff in E. exfalso. apply (Qlt_not_le _ _ H E).
Qed.

Lemma Qltb_ge (x y : Q) : Qltb x y = false <-> y <= x.
Proof.
  unfold Qltb. rewrite negb_false_iff. apply Qle_bool_iff.
Qed.

Lemma Qle_bool_false (x y : Q) : Qle_bool x y = false <-> y < x.
Proof. rewrite <- (Qltb_lt y x). unfold Qltb. now rewrite negb_true_iff. Qed.

Lemma py_max_spec (a b : Q) : py_max a b == Qmax a b.
Proof.
  unfold py_max. destruct (Qltb a b) eqn:E.
  - apply Qltb_lt in E. symmetry. apply Q.max_r. apply Qlt_le_weak, E.
  - apply Qltb_ge in E. symmetry. apply Q.max_l. exact E.
Qed.

Lemma round_half_even_comp (x y : Q) :
  x == y -> round_half_even x = round_half_even y.
Proof.
  intro E. unfold round_half_even.
  rewrite (Qfloor_comp _ _ E).
  assert (C : Qcompare (x - inject_Z (Qfloor y)) (1 # 2)
              = Qcompare (y - inject_Z (Qfloor y)) (1 # 2))
    by (apply Qcompare_comp; [rewrite E|]; reflexivity).
  now rewrite C.
Qed.

Lemma py_round_comp (x y : Q) (n : nat) :
  x == y -> py_round x n == py_round y n.
Proof.
  intro E. unfold py_round.
  rewrite (round_half_even_comp (x * pow10 n) (y * pow10 n)); [reflexivity|].
  now rewrite E.
Qed.

End PyNum.

(** ** Exceptions and Python's list built-ins *)

Inductive PyError : Type := ValueError | ZeroDivisionError.

Inductive result (A : Type) : Type :=
| Ok (a : A)
| Raise (e : PyError).

Arguments Ok {A} a.
Arguments Raise {A} e.

Definition bind {A B : Type} (m : result A) (k : A -> result B) : result B :=
  match m with
  | Ok a => k a
  | Raise e => Raise e
  end.

Notation "x <- m ;; k" := (bind m (fun x => k))
  (at level 61, m at next level, right associativity).

Module PyList.

Import PyNum.
Open Scope Q_scope.

(** [min(l, key=key)]: the first element whose key is the least;
    [ValueError] on the empty list. *)
Definition py_min_by (key : Q -> Q) (l : list Q) : result Q :=
  match l with
  | [] => Raise ValueError
  | x :: t =>
      Ok (fold_left (fun best y => if Qltb (key y) (key best) then y else best) t x)
  end.

(** [l.index(x)]: the first position holding a value equal to [x]. *)
Fixpoint py_index (x : Q) (l : list Q) : result nat :=
  match l with
  | [] => Raise ValueError
  | y :: t =>
      if Qeq_bool y x then Ok O
      else i <- py_index x t ;; Ok (S i)
  end.

(** A slice bound as Python reads it: negative bounds count from the end,
    and every bound is clamped to [0, len]. *)
Definition slice_bound (len i : Z) : Z :=
  if (i <? 0)%Z then Z.max 0 (i + len) else Z.min i len.

(** [l[a:b]]. *)
Definition py_slice {A : Type} (l : list A) (a b : Z) : list A :=
  let len := Z.of_nat (length l) in
  let a' := slice_bound len a in
  let b' := slice_bound len b in
  firstn (Z.to_nat (b' - a')) (skipn (Z.to_nat a') l).

End PyList.

(** ** Shared data *)

(** The option type.  The source compares a string with ['call'] and
    treats every other string as a put; [Put] stands for that branch. *)
Inductive OptionType : Type := Call | Put.

Definition OptionType_eqb (a b : OptionType) : bool :=
  match a, b with
  | Call, Call | Put, Put => true
  | _, _ => false
  end.

(** ** utils/data_formatter.py *)

Module DataFormatter.

Import PyNum PyList.
Open Scope Q_scope.

(** [estimate_bid_ask_spread(last_price, volume, option_type='call')]. *)
Definition estimate_bid_ask_spread
    (last_price : Q) (volume : Z) (option_type : OptionType) : Q * Q :=
  if Qle_bool last_price 0 then (0, 0)
  else
    let spread_pct :=
      if (10000 <? volume)%Z then 2 # 100
      else if (1000 <? volume)%Z then 4 # 100
      else if (100 <? volume)%Z then 8 # 100
      else if (10 <? volume)%Z then 15 # 100
      else 25 # 100 in
    let half_spread := last_price * spread_pct / 2 in
    let bid := py_max (1 # 100) (py_round (last_price - half_spread) 2) in
    let ask := py_round (last_price + half_spread) 2 in
    (bid, ask).

(** The result dictionary of [calculate_moneyness]. *)
Record Moneyness : Type := mkMoneyness {
  moneyness_pct : Q;
  is_itm : bool;
  is_atm : bool;
  is_otm : bool;
  intrinsic_value : Q
}.

(** [calculate_moneyness(stock_price, strike, option_type)]. *)
Definition calculate_moneyness
    (stock_price strike : Q) (option_type : OptionType) : Moneyness :=
  if Qle_bool stock_price 0 || Qle_bool strike 0 then
    mkMoneyness 0 false false false 0
  else
    let pct := ((stock_price - strike) / stock_price) * 100 in
    let atm_threshold := 5 # 10 in
    let '(itm, otm, intrinsic) :=
      match option_type with
      | Call =>
          (Qltb (strike * (1 + atm_threshold / 100)) stock_price,
           Qltb stock_price (strike * (1 - atm_threshold / 100)),
           py_max 0 (stock_price - strike))
      | Put =>
          (Qltb stock_price (strike * (1 - atm_threshold / 100)),
           Qltb (strike * (1 + atm_threshold / 100)) stock_price,
           py_max 0 (strike - stock_price))
      end in
    mkMoneyness pct itm (negb itm && negb otm) otm intrinsic.

(** [get_strike_range_around_atm(strikes, current_price, num_strikes=10)]. *)
Definition get_strike_range_around_atm
    (strikes : list Q) (current_price : Q) (num_strikes : Z) : result (list Q) :=
  match strikes with
  | [] => Ok []
  | _ =>
      atm_strike <- py_min_by (fun x => Qabs (x - current_price)) strikes ;;
      atm_index <- py_index atm_strike strikes ;;
      let start_idx := Z.max 0 (Z.of_nat atm_index - num_strikes) in
      let end_idx :=
        Z.min (Z.of_nat (length strikes)) (Z.of_nat atm_index + num_strikes + 1) in
      Ok (py_slice strikes start_idx end_idx)
  end.

(** One row of the option chain frame; [implied_volatility] is [None]
    where the frame holds NaN or has no such column. *)
Record ChainRow : Type := mkRow {
  row_type : OptionType;
  row_strike : Q;
  row_volume : Z;
  row_open_interest : Z;
  row_implied_volatility : option Q
}.

Definition rows_of (ty : OptionType) (chain : list ChainRow) : list ChainRow :=
  filter (fun r => OptionType_eqb (row_type r) ty) chain.

Definition sum_Z (l : list Z) : Z := fold_left Z.add l 0%Z.

Definition sum_Q (l : list Q) : Q := fold_left Qplus l 0.

(** The values of the rows that have an implied volatility. *)
Fixpoint dropna_iv (rows : list ChainRow) : list Q :=
  match rows with
  | [] => []
  | r :: t =>
      match row_implied_volatility r with
      | Some v => v :: dropna_iv t
      | None => dropna_iv t
      end
  end.

Definition mean_iv (rows : list ChainRow) : Q :=
  match dropna_iv rows with
  | [] => 0
  | ivs => sum_Q ivs / inject_Z (Z.of_nat (length ivs))
  end.

(** The result dictionary of [aggregate_option_metrics]. *)
Record ChainMetrics : Type := mkMetrics {
  total_call_volume : Z;
  total_put_volume : Z;
  total_call_oi : Z;
  total_put_oi : Z;
  pc_ratio_volume : Q;
  pc_ratio_oi : Q;
  avg_iv_calls : Q;
  avg_iv_puts : Q;
  num_contracts : nat
}.

(** [aggregate_option_metrics(option_chain)]. *)
Definition aggregate_option_metrics (option_chain : list ChainRow) : ChainMetrics :=
  match option_chain with
  | [] => mkMetrics 0 0 0 0 0 0 0 0 0
  | _ =>
      let calls := rows_of Call option_chain in
      let puts := rows_of Put option_chain in
      let tcv := sum_Z (map row_volume calls) in
      let tpv := sum_Z (map row_volume puts) in
      let tcoi := sum_Z (map row_open_interest calls) in
      let tpoi := sum_Z (map row_open_interest puts) in
      let ratio_volume :=
        if (0 <? tcv)%Z then inject_Z tpv / inject_Z tcv else 0 in
      let ratio_oi :=
        if (0 <? tcoi)%Z then inject_Z tpoi / inject_Z tcoi else 0 in
      mkMetrics tcv tpv tcoi tpoi
        (py_round ratio_volume 2) (py_round ratio_oi 2)
        (py_round (mean_iv calls) 3) (py_round (mean_iv puts) 3)
        (length option_chain)
  end.

(** The labels of the two sentiment computations: the texts
    "Bearish", "Slightly Bearish", "Bullish", "Slightly Bullish",
    "Neutral", the formatter's "No Data" and the dashboard's "N/A". *)
Inductive Sentiment : Type :=
| Bearish | SlightlyBearish | Bullish | SlightlyBullish | Neutral
| NoData | NotAvailable.

(** [determine_market_sentiment(pc_ratio_volume, pc_ratio_oi)]. *)
Definition determine_market_sentiment (pc_ratio_volume pc_ratio_oi : Q) : Sentiment :=
  let avg :=
    if Qltb 0 pc_ratio_volume && Qltb 0 pc_ratio_oi
    then Some ((pc_ratio_volume + pc_ratio_oi) / 2)
    else if Qltb 0 pc_ratio_volume then Some pc_ratio_volume
    else if Qltb 0 pc_ratio_oi then Some pc_ratio_oi
    else None in
  match avg with
  | None => NoData
  | Some avg_pc_ratio =>
      if Qltb (12 # 10) avg_pc_ratio then Bearish
      else if Qltb 1 avg_pc_ratio then SlightlyBearish
      else if Qltb avg_pc_ratio (7 # 10) then Bullish
      else if Qltb avg_pc_ratio (9 # 10) then SlightlyBullish
      else Neutral
  end.

(** What [validate_spread_parameters] reports besides the flag. *)
Inductive SpreadMessage : Type :=
| NoMessage
| LegsDiffer          (* "Both legs must be the same type ..." *)
| CallStrikeOrder     (* "... sell strike must be lower than buy strike" *)
| PutStrikeOrder.     (* "... sell strike must be higher than buy strike" *)

(** [validate_spread_parameters(sell_strike, buy_strike, sell_type, buy_type)]. *)
Definition validate_spread_parameters
    (sell_strike buy_strike : Q) (sell_type buy_type : OptionType)
    : bool * SpreadMessage :=
  if negb (OptionType_eqb sell_type buy_type) then (false, LegsDiffer)
  else
    match sell_type with
    | Call =>
        if Qle_bool buy_strike sell_strike then (false, CallStrikeOrder)
        else (true, NoMessage)
    | Put =>
        if Qle_bool sell_strike buy_strike then (false, PutStrikeOrder)
        else (true, NoMessage)
    end.

End DataFormatter.

(** ** The inline estimate of [_get_option_chain_from_s3] *)

Module S3Chain.

Import PyNum.
Open Scope Q_scope.

(** The bid/ask block of the S3 loader, with the [round(bid, 2)] and
    [round(ask, 2)] applied when the row is built. *)
Definition inline_bid_ask (last_price : Q) (volume : Z) : Q * Q :=
  if Qltb 0 last_price then
    let spread :=
      if (1000 <? volume)%Z then 2 # 100
      else if (100 <? volume)%Z then 5 # 100
      else 10 # 100 in
    let half_spread := last_price * spread / 2 in
    let bid := py_max (1 # 100) (last_price - half_spread) in
    let ask := last_price + half_spread in
    (py_round bid 2, py_round ask 2)
  else (py_round 0 2, py_round 0 2).

End S3Chain.


(** ** app.py: the dashboard's own computations *)

Module App.

Import PyNum PyList DataFormatter.
Open Scope Q_scope.

(** Float division of two Python numbers. *)
Definition py_div (a b : Q) : result Q :=
  if Qeq_bool b 0 then Raise ZeroDivisionError else Ok (a / b).

(** The ATM and display-strikes block; [strikes] is the sorted list of
    the chain's distinct strikes, [strikes_around_atm] the slider value. *)
Definition display_strikes
    (strikes : list Q) (stock_price : Q) (strikes_around_atm : Z)
    : result (list Q) :=
  atm_strike <- py_min_by (fun x => Qabs (x - stock_price)) strikes ;;
  atm_index <- py_index atm_strike strikes ;;
  d <- py_div (Qabs (atm_strike - stock_price)) stock_price ;;
  let atm_distance_pct := d * 100 in
  if Qltb 20 atm_distance_pct then Ok strikes
  else
    let start_idx := Z.max 0 (Z.of_nat atm_index - strikes_around_atm) in
    let end_idx :=
      Z.min (Z.of_nat (length strikes))
            (Z.of_nat atm_index + strikes_around_atm + 1) in
    Ok (py_slice strikes start_idx end_idx).

(** What a ratio metric shows: the ratio with two decimals, or "N/A". *)
Inductive RatioMetric : Type :=
| RatioText (q : Q)
| RatioNA.

(** One put/call ratio of the summary: the metric shown and the value
    the block leaves in its variable. *)
Definition pc_ratio_block (total_put total_call : Z) : RatioMetric * Q :=
  if (0 <? total_call)%Z then
    let pc_ratio := inject_Z total_put / inject_Z total_call in
    (RatioText (py_round pc_ratio 2), pc_ratio)
  else (RatioNA, 0).

(** The market sentiment block. *)
Definition sentiment_block (pc_ratio_volume pc_ratio_oi : Q) : Sentiment :=
  if Qltb 0 pc_ratio_volume || Qltb 0 pc_ratio_oi then
    let ratios := filter (Qltb 0) [pc_ratio_volume; pc_ratio_oi] in
    let avg_pc_ratio :=
      match ratios with
      | [] => 0
      | _ => sum_Q ratios / inject_Z (Z.of_nat (length ratios))
      end in
    if Qltb (12 # 10) avg_pc_ratio then Bearish
    else if Qltb avg_pc_ratio (8 # 10) then Bullish
    else Neutral
  else NotAvailable.

(** The summary statistics row of the dashboard. *)
Record Summary : Type := mkSummary {
  shown_call_volume : Z;
  shown_call_oi : Z;
  shown_put_volume : Z;
  shown_put_oi : Z;
  volume_ratio_metric : RatioMetric;
  oi_ratio_metric : RatioMetric;
  sentiment_metric : Sentiment
}.

Definition summary_statistics (option_chain : list ChainRow) : Summary :=
  let tcv := sum_Z (map row_volume (rows_of Call option_chain)) in
  let tcoi := sum_Z (map row_open_interest (rows_of Call option_chain)) in
  let tpv := sum_Z (map row_volume (rows_of Put option_chain)) in
  let tpoi := sum_Z (map row_open_interest (rows_of Put option_chain)) in
  let '(vol_metric, pc_ratio_volume) := pc_ratio_block tpv tcv in
  let '(oi_metric, pc_ratio_oi) := pc_ratio_block tpoi tcoi in
  mkSummary tcv tcoi tpv tpoi vol_metric oi_metric
    (sentiment_block pc_ratio_volume pc_ratio_oi).



(** *** Credit spread calculator *)

Inductive SpreadName : Type := BearCallSpread | BullPutSpread.

(** [np.linspace(start, stop, num)]. *)
Definition linspace (start stop : Q) (num : nat) : list Q :=
  map (fun i => start + inject_Z (Z.of_nat i) * ((stop - start) / inject_Z (Z.of_nat (num - 1))))
      (seq 0 num).

(** The body of the P&L loop. *)
Definition position_pnl (sell_type : OptionType)
    (sell_strike buy_strike net_credit : Q) (contracts : Z) (price : Q) : Q :=
  match sell_type with
  | Call =>
      let sell_intrinsic := py_max 0 (price - sell_strike) in
      let buy_intrinsic := py_max 0 (price - buy_strike) in
      (net_credit - sell_intrinsic + buy_intrinsic) * 100 * inject_Z contracts
  | Put =>
      let sell_intrinsic := py_max 0 (sell_strike - price) in
      let buy_intrinsic := py_max 0 (buy_strike - price) in
      (net_credit - sell_intrinsic + buy_intrinsic) * 100 * inject_Z contracts
  end.

Record SpreadAnalysis : Type := mkAnalysis {
  spread_name : SpreadName;
  net_credit : Q;
  max_profit : Q;
  max_loss : Q;
  breakeven : Q;
  (* the P&L diagram: drawn only when a stock price is loaded *)
  price_range : list Q;
  pnl : list Q
}.

Inductive SpreadOutcome : Type :=
| Analysed (a : SpreadAnalysis)
| Rejected (m : SpreadMessage).

(** What the "Calculate Spread" button computes. *)
Definition calculate_spread
    (sell_type : OptionType) (sell_strike sell_premium : Q)
    (buy_type : OptionType) (buy_strike buy_premium : Q)
    (contracts : Z) (current_stock_price : option Q) : SpreadOutcome :=
  if OptionType_eqb sell_type buy_type then
    let net_credit := sell_premium - buy_premium in
    let max_profit := net_credit * 100 * inject_Z contracts in
    let diagram :=
      match current_stock_price with
      | Some p =>
          if Qeq_bool p 0 then []
          else linspace (py_min sell_strike buy_strike * (9 # 10))
                        (py_max sell_strike buy_strike * (11 # 10)) 100
      | None => []
      end in
    let curve :=
      map (position_pnl sell_type sell_strike buy_strike net_credit contracts)
          diagram in
    match sell_type with
    | Call =>
        if Qltb sell_strike buy_strike then
          let spread_width := buy_strike - sell_strike in
          Analysed (mkAnalysis BearCallSpread net_credit max_profit
                      ((spread_width - net_credit) * 100 * inject_Z contracts)
                      (sell_strike + net_credit) diagram curve)
        else Rejected CallStrikeOrder
    | Put =>
        if Qltb buy_strike sell_strike then
          let spread_width := sell_strike - buy_strike in
          Analysed (mkAnalysis BullPutSpread net_credit max_profit
                      ((spread_width - net_credit) * 100 * inject_Z contracts)
                      (sell_strike - net_credit) diagram curve)
        else Rejected PutStrikeOrder
    end
  else Rejected LegsDiffer.

End App.

(** ** The standard normal distribution

    [scipy.stats.norm] is not part of the repository; its density and
    distribution function are defined here over the reals, the
    distribution function by the power series of the Gaussian integral:
    cdf(x) = 1/2 + x * sum_n (-x^2/2)^n / (n! (2n+1)) / sqrt(2 pi). *)

Module Normal.

Import Reals Factorial ROrderedType Lra.
Open Scope R_scope.

Definition coef (n : nat) : R := / (INR (fact n) * INR (2 * n + 1)).

Lemma coef_pos (n : nat) : 0 < coef n.
Proof.
  unfold coef. apply Rinv_0_lt_compat. apply Rmult_lt_0_compat.
  - apply INR_fact_lt_0.
  - apply lt_0_INR. lia.
Qed.

Lemma coef_nonzero (n : nat) : coef n <> 0.
Proof. pose proof (coef_pos n). lra. Qed.

Lemma coef_ratio (n : nat) :
  coef (S n) / coef n = INR (2 * n + 1) / (INR (S n) * INR (2 * n + 3)).
Proof.
  unfold coef. rewrite fact_simpl, mult_INR.
  replace (2 * S n + 1)%nat with (2 * n + 3)%nat by lia.
  pose proof (INR_fact_lt_0 n) as A.
  assert (B : 0 < INR (2 * n + 1)) by (apply lt_0_INR; lia).
  assert (C : 0 < INR (S n)) by (apply lt_0_INR; lia).
  assert (D : 0 < INR (2 * n + 3)) by (apply lt_0_INR; lia).
  field. repeat split; lra.
Qed.

Lemma coef_ratio_bound (n : nat) : 0 < coef (S n) / coef n <= / INR (S n).
Proof.
  rewrite coef_ratio.
  assert (B : 0 < INR (2 * n + 1)) by (apply lt_0_INR; lia).
  assert (C : 0 < INR (S n)) by (apply lt_0_INR; lia).
  assert (D : INR (2 * n + 3) = INR (2 * n + 1) + 2).
  { replace (2 * n + 3)%nat with ((2 * n + 1) + 2)%nat by lia.
    rewrite plus_INR. simpl. lra. }
  rewrite D. split.
  - apply Rdiv_lt_0_compat; [lra | apply Rmult_lt_0_compat; lra].
  - apply (Rmult_le_reg_r (INR (S n) * (INR (2 * n + 1) + 2))).
    + apply Rmult_lt_0_compat; lra.
    + unfold Rdiv. rewrite Rmult_assoc, Rinv_l.
      * rewrite <- Rmult_assoc, Rinv_l; lra.
      * apply Rgt_not_eq. apply Rmult_lt_0_compat; lra.
Qed.

Lemma coef_ratio_cv : Un_cv (fun n => Rabs (coef (S n) / coef n)) 0.
Proof.
  intros eps He.
  destruct (archimed_cor1 eps He) as [N [HN HN0]].
  exists N. intros n Hn.
  destruct (coef_ratio_bound n) as [P U].
  unfold Rdist. rewrite Rminus_0_r, Rabs_Rabsolu, Rabs_pos_eq by lra.
  apply Rle_lt_trans with (/ INR (S n)); [exact U|].
  apply Rle_lt_trans with (/ INR N); [| exact HN].
  apply Rinv_le_contravar.
  - apply lt_0_INR. exact HN0.
  - apply le_INR. lia.
Qed.

Definition gauss_series (u : R) : R :=
  proj1_sig (Alembert_C3 coef u coef_nonzero coef_ratio_cv).

Lemma gauss_series_sum (u : R) : Pser coef u (gauss_series u).
Proof. unfold gauss_series. apply proj2_sig. Qed.

Section Alternating.

Variable u : R.
Hypothesis u_range : -1 <= u <= 0.

Let term (n : nat) : R := coef n * (- u) ^ n.

Lemma term_alt (n : nat) : tg_alt term n = coef n * u ^ n.
Proof.
  unfold tg_alt, term.
  replace (u ^ n) with ((-1) ^ n * (- u) ^ n); [ring|].
  rewrite <- Rpow_mult_distr. f_equal. ring.
Qed.

Lemma term_decreasing : Un_decreasing term.
Proof.
  intro n. unfold term.
  destruct (coef_ratio_bound n) as [P U].
  pose proof (coef_pos n) as Cn. pose proof (coef_pos (S n)) as Cs.
  assert (V : 0 <= (- u) ^ n) by (apply pow_le; lra).
  assert (I : / INR (S n) <= 1).
  { rewrite <- Rinv_1. apply Rinv_le_contravar; [lra|].
    replace 1 with (INR 1) by reflexivity. apply le_INR. lia. }
  assert (L : coef (S n) <= coef n).
  { assert (E : coef (S n) = coef (S n) / coef n * coef n) by (field; lra).
    rewrite E. nra. }
  cbn [pow].
  apply Rle_trans with (coef (S n) * (- u) ^ n).
  - apply Rmult_le_compat_l; [lra | nra].
  - apply Rmult_le_compat_r; lra.
Qed.

Lemma term_small (n : nat) : 0 <= term n <= / INR (2 * n + 1).
Proof.
  unfold term. pose proof (coef_pos n) as Cn.
  assert (V : 0 <= (- u) ^ n <= 1).
  { split; [apply pow_le; lra|].
    rewrite <- (pow1 n). apply pow_incr. lra. }
  assert (D : 0 < INR (2 * n + 1)) by (apply lt_0_INR; lia).
  assert (C : coef n <= / INR (2 * n + 1)).
  { unfold coef. apply Rinv_le_contravar; [exact D|].
    rewrite <- (Rmult_1_l (INR (2 * n + 1))) at 1.
    apply Rmult_le_compat_r; [lra|].
    replace 1 with (INR 1) by reflexivity. apply le_INR.
    pose proof (lt_O_fact n). lia. }
  split; [apply Rmult_le_pos; lra|].
  apply Rle_trans with (coef n * 1); [apply Rmult_le_compat_l; lra | lra].
Qed.

Lemma term_cv : Un_cv term 0.
Proof.
  intros eps He.
  destruct (archimed_cor1 eps He) as [N [HN HN0]].
  exists N. intros n Hn.
  destruct (term_small n) as [P U].
  unfold Rdist. rewrite Rminus_0_r, Rabs_pos_eq by exact P.
  apply Rle_lt_trans with (/ INR (2 * n + 1)); [exact U|].
  apply Rle_lt_trans with (/ INR N); [| exact HN].
  apply Rinv_le_contravar.
  - apply lt_0_INR. exact HN0.
  - apply le_INR. lia.
Qed.

Lemma gauss_series_bounds : 1 + u / 3 <= gauss_series u <= 1.
Proof.
  assert (S : Un_cv (fun N => sum_f_R0 (tg_alt term) N) (gauss_series u)).
  { intros eps He.
    destruct (gauss_series_sum u eps He) as [N HN].
    exists N. intros n Hn.
    rewrite (sum_eq _ (fun k => coef k * u ^ k)).
    - now apply HN.
    - intros i _. apply term_alt. }
  pose proof (alternated_series_ineq term (gauss_series u) 0
                term_decreasing term_cv S) as [L U].
  change (tg_alt term 0 + tg_alt term 1 <= gauss_series u) in L.
  change (gauss_series u <= tg_alt term 0) in U.
  rewrite !term_alt in L. rewrite term_alt in U.
  unfold coef in L, U. cbn in L, U. lra.
Qed.

End Alternating.

Definition norm_pdf (x : R) : R := exp (- (x * x) / 2) / sqrt (2 * PI).

Definition norm_cdf (x : R) : R :=
  1 / 2 + x * gauss_series (- (x * x) / 2) / sqrt (2 * PI).

Lemma norm_cdf_neg (x : R) : norm_cdf (- x) = 1 - norm_cdf x.
Proof.
  unfold norm_cdf.
  replace (- x * - x) with (x * x) by ring.
  field. apply Rgt_not_eq. apply sqrt_lt_R0.
  pose proof PI_RGT_0. lra.
Qed.

(** At zero the distribution function is one half. *)
Lemma norm_cdf_0 : norm_cdf 0 = 1 / 2.
Proof. unfold norm_cdf. unfold Rdiv. rewrite !Rmult_0_l. lra. Qed.

Lemma sqrt_2PI_gt_1 : 1 < sqrt (2 * PI).
Proof.
  rewrite <- sqrt_1 at 1. apply sqrt_lt_1_alt.
  pose proof PI2_1. lra.
Qed.

(** Near zero the distribution function rises, by at most two per unit. *)
Lemma norm_cdf_gap (x : R) :
  0 < x <= 1 -> 0 < norm_cdf x - norm_cdf (- x) <= 2 * x.
Proof.
  intros [L U]. rewrite norm_cdf_neg. unfold norm_cdf.
  assert (B : -1 <= - (x * x) / 2 <= 0) by nra.
  pose proof (gauss_series_bounds _ B) as [G1 G2].
  set (g := gauss_series (- (x * x) / 2)) in *.
  pose proof sqrt_2PI_gt_1 as Q.
  assert (C : 0 < / sqrt (2 * PI) < 1).
  { split; [apply Rinv_0_lt_compat; lra|].
    rewrite <- Rinv_1. apply Rinv_lt_contravar; lra. }
  unfold Rdiv. set (c := / sqrt (2 * PI)) in *.
  assert (Gp : 0 < g) by nra.
  assert (P : 0 < x * g) by nra.
  assert (P1 : x * g <= x) by nra.
  assert (P2 : 0 < x * g * c) by nra.
  assert (P3 : x * g * c <= x * g) by nra.
  lra.
Qed.

End Normal.

(** ** numpy's float64 values over exact reals *)

Module NumPy.

Import Reals Factorial ROrderedType Lra.
Import Normal.
Open Scope R_scope.

(** A float64 as numpy computes with it: a number, an infinity or NaN.
    Operations never raise; zero has no sign. *)
Inductive npfloat : Type :=
| Fin (x : R)
| PInf
| NInf
| NaN.

Definition Rleb (x y : R) : bool :=
  match Rcompare x y with Gt => false | _ => true end.

Definition Rltb (x y : R) : bool :=
  match Rcompare x y with Lt => true | _ => false end.

(** The infinity with the sign of a comparison with zero; NaN for zero. *)
Definition signed_inf (c : comparison) : npfloat :=
  match c with Gt => PInf | Lt => NInf | Eq => NaN end.

Definition fneg (a : npfloat) : npfloat :=
  match a with
  | Fin x => Fin (- x)
  | PInf => NInf
  | NInf => PInf
  | NaN => NaN
  end.

Definition fadd (a b : npfloat) : npfloat :=
  match a, b with
  | NaN, _ | _, NaN => NaN
  | Fin x, Fin y => Fin (x + y)
  | PInf, NInf | NInf, PInf => NaN
  | PInf, _ | _, PInf => PInf
  | NInf, _ | _, NInf => NInf
  end.

Definition fsub (a b : npfloat) : npfloat := fadd a (fneg b).

Definition fmul (a b : npfloat) : npfloat :=
  match a, b with
  | NaN, _ | _, NaN => NaN
  | Fin x, Fin y => Fin (x * y)
  | Fin x, PInf | PInf, Fin x => signed_inf (Rcompare x 0)
  | Fin x, NInf | NInf, Fin x => signed_inf (Rcompare 0 x)
  | PInf, PInf | NInf, NInf => PInf
  | PInf, NInf | NInf, PInf => NInf
  end.

Definition fdiv (a b : npfloat) : npfloat :=
  match a, b with
  | NaN, _ | _, NaN => NaN
  | Fin x, Fin y =>
      match Rcompare y 0 with
      | Eq => signed_inf (Rcompare x 0)
      | _ => Fin (x / y)
      end
  | Fin _, _ => Fin 0
  | PInf, Fin y => if Rltb y 0 then NInf else PInf
  | NInf, Fin y => if Rltb y 0 then PInf else NInf
  | _, _ => NaN
  end.

Definition np_log (a : npfloat) : npfloat :=
  match a with
  | Fin x =>
      match Rcompare x 0 with
      | Gt => Fin (ln x)
      | Eq => NInf
      | Lt => NaN
      end
  | PInf => PInf
  | _ => NaN
  end.

Definition np_sqrt (a : npfloat) : npfloat :=
  match a with
  | Fin x => if Rltb x 0 then NaN else Fin (sqrt x)
  | PInf => PInf
  | _ => NaN
  end.

Definition np_exp (a : npfloat) : npfloat :=
  match a with
  | Fin x => Fin (exp x)
  | PInf => PInf
  | NInf => Fin 0
  | NaN => NaN
  end.

(** [scipy.stats.norm.cdf] and [norm.pdf]. *)
Definition cdf (a : npfloat) : npfloat :=
  match a with
  | Fin x => Fin (norm_cdf x)
  | PInf => Fin 1
  | NInf => Fin 0
  | NaN => NaN
  end.

Definition pdf (a : npfloat) : npfloat :=
  match a with
  | Fin x => Fin (norm_pdf x)
  | PInf | NInf => Fin 0
  | NaN => NaN
  end.

(** Nearest integer, ties to the even one. *)
Definition Rround_half_even (x : R) : Z :=
  let f := Int_part x in
  match Rcompare (x - IZR f) (1 / 2) with
  | Lt => f
  | Gt => (f + 1)%Z
  | Eq => if Z.even f then f else (f + 1)%Z
  end.

Definition round_to (x : R) (ndigits : nat) : R :=
  IZR (Rround_half_even (x * 10 ^ ndigits)) / 10 ^ ndigits.

(** [round(a, ndigits)] of a float64. *)
Definition np_round (a : npfloat) (ndigits : nat) : npfloat :=
  match a with
  | Fin x => Fin (round_to x ndigits)
  | other => other
  end.

(** [max(a, b)] and the division of two Python floats. *)
Definition py_maxR (a b : R) : R := if Rltb a b then b else a.

Definition py_divR (a b : R) : result R :=
  match Rcompare b 0 with
  | Eq => Raise ZeroDivisionError
  | _ => Ok (a / b)
  end.

Lemma Rleb_le (x y : R) : Rleb x y = true <-> x <= y.
Proof.
  unfold Rleb. destruct (Rcompare_spec x y); split; intro; try lra; congruence.
Qed.

Lemma Rleb_gt (x y : R) : Rleb x y = false <-> y < x.
Proof.
  unfold Rleb. destruct (Rcompare_spec x y); split; intro; try lra; congruence.
Qed.

Lemma Rltb_lt (x y : R) : Rltb x y = true <-> x < y.
Proof.
  unfold Rltb. destruct (Rcompare_spec x y); split; intro; try lra; congruence.
Qed.

Lemma Rltb_ge (x y : R) : Rltb x y = false <-> y <= x.
Proof.
  unfold Rltb. destruct (Rcompare_spec x y); split; intro; try lra; congruence.
Qed.

Lemma py_maxR_Rmax (a b : R) : py_maxR a b = Rmax a b.
Proof.
  unfold py_maxR. destruct (Rltb a b) eqn:E.
  - apply Rltb_lt in E. rewrite Rmax_right; lra.
  - apply Rltb_ge in E. rewrite Rmax_left; lra.
Qed.

Lemma py_divR_nonzero (a b : R) : b <> 0 -> py_divR a b = Ok (a / b).
Proof.
  intro H. unfold py_divR. destruct (Rcompare_spec b 0); [contradiction | |]; reflexivity.
Qed.

Lemma py_divR_zero (a : R) : py_divR a 0 = Raise ZeroDivisionError.
Proof.
  unfold py_divR. destruct (Rcompare_spec 0 0); [reflexivity | |]; lra.
Qed.

Lemma fdiv_fin (x y : R) : y <> 0 -> fdiv (Fin x) (Fin y) = Fin (x / y).
Proof.
  intro H. unfold fdiv. destruct (Rcompare_spec y 0); [contradiction | |]; reflexivity.
Qed.

Lemma np_log_pos (x : R) : 0 < x -> np_log (Fin x) = Fin (ln x).
Proof.
  intro H. unfold np_log. destruct (Rcompare_spec x 0); [lra | lra | reflexivity].
Qed.

Lemma np_log_neg (x : R) : x < 0 -> np_log (Fin x) = NaN.
Proof.
  intro H. unfold np_log. destruct (Rcompare_spec x 0); [lra | reflexivity | lra].
Qed.

Lemma np_sqrt_nonneg (x : R) : 0 <= x -> np_sqrt (Fin x) = Fin (sqrt x).
Proof.
  intro H. unfold np_sqrt. apply Rltb_ge in H. now rewrite H.
Qed.

Lemma Rround_half_even_small (y : R) : 0 <= y < 1 / 2 -> Rround_half_even y = 0%Z.
Proof.
  intros [L U]. unfold Rround_half_even.
  assert (E : Int_part y = 0%Z) by (symmetry; apply Int_part_spec; simpl; lra).
  rewrite E. simpl IZR.
  destruct (Rcompare_spec (y - 0) (1 / 2)); [lra | reflexivity | lra].
Qed.

End NumPy.

(** ** utils/polygon_api.py: Black-Scholes price and Greeks *)

Module PolygonAPI.

Import Reals Factorial ROrderedType Lra.
Import Normal NumPy.
Open Scope R_scope.

Coercion Fin : R >-> npfloat.

Declare Scope np_scope.
Delimit Scope np_scope with np.
Bind Scope np_scope with npfloat.
Infix "+" := fadd : np_scope.
Infix "-" := fsub : np_scope.
Infix "*" := fmul : np_scope.
Infix "/" := fdiv : np_scope.
Notation "- a" := (fneg a) : np_scope.

Record Greeks : Type := mkGreeks {
  delta : npfloat;
  gamma : npfloat;
  theta : npfloat;
  vega : npfloat;
  rho : npfloat
}.

(** [calculate_greeks(S, K, T, r, sigma, option_type)]. *)
Definition calculate_greeks (S K T r sigma : R) (option_type : OptionType)
    : result Greeks :=
  if Rleb T 0 || Rleb sigma 0 then Ok (mkGreeks 0 0 0 0 0)
  else
    q <- py_divR S K ;;
    let sqrt_T := np_sqrt T in
    let d1 := ((np_log q + Fin ((r + 0.5 * sigma ^ 2) * T)) / (sigma * sqrt_T))%np in
    let d2 := (d1 - sigma * sqrt_T)%np in
    let discount := np_exp (Fin (- r * T)) in
    let '(delta, theta, rho) :=
      match option_type with
      | Call =>
          (cdf d1,
           ((Fin (- S) * pdf d1 * sigma / (2 * sqrt_T)
             - Fin (r * K) * discount * cdf d2) / 365)%np,
           (Fin (K * T) * discount * cdf d2 / 100)%np)
      | Put =>
          ((cdf d1 - 1)%np,
           ((Fin (- S) * pdf d1 * sigma / (2 * sqrt_T)
             + Fin (r * K) * discount * cdf (- d2)) / 365)%np,
           (Fin (- K * T) * discount * cdf (- d2) / 100)%np)
      end in
    let gamma := (pdf d1 / (Fin (S * sigma) * sqrt_T))%np in
    let vega := (S * pdf d1 * sqrt_T / 100)%np in
    Ok (mkGreeks (np_round delta 4) (np_round gamma 4) (np_round theta 4)
                 (np_round vega 4) (np_round rho 4)).

(** [_d1(S, K, T, r, sigma)]. *)
Definition _d1 (S K T r sigma : R) : result npfloat :=
  if Rleb T 0 || Rleb sigma 0 then Ok (Fin 0)
  else
    q <- py_divR S K ;;
    Ok ((np_log q + Fin ((r + 0.5 * sigma ^ 2) * T)) / (sigma * np_sqrt T))%np.

(** [_black_scholes_price(S, K, T, r, sigma, option_type)]. *)
Definition _black_scholes_price (S K T r sigma : R) (option_type : OptionType)
    : result npfloat :=
  if Rleb T 0 then
    match option_type with
    | Call => Ok (Fin (py_maxR 0 (S - K)))
    | Put => Ok (Fin (py_maxR 0 (K - S)))
    end
  else
    d1 <- _d1 S K T r sigma ;;
    let d2 := (d1 - sigma * np_sqrt T)%np in
    match option_type with
    | Call => Ok (S * cdf d1 - K * np_exp (Fin (- r * T)) * cdf d2)%np
    | Put => Ok (K * np_exp (Fin (- r * T)) * cdf (- d2) - S * cdf (- d1))%np
    end.

End PolygonAPI.

(** * Properties *)

(** ** Spread/liquidity estimator *)

Module EstimatorProofs.

Import PyNum DataFormatter.
Open Scope Q_scope.






End EstimatorProofs.

(** ** Moneyness classifier *)

Module MoneynessProofs.

Import PyNum DataFormatter.
Open Scope Q_scope.

(** The ATM band of the classifier: half a percent of the strike. *)
Definition tol : Q := 5 # 1000.



Definition intrinsic (ty : OptionType) (S K : Q) : Q :=
  match ty with
  | Call => Qmax 0 (S - K)
  | Put => Qmax 0 (K - S)
  end.

Lemma band_upper (K : Q) : K * (1 + (5 # 10) / 100) == K * (1 + tol).
Proof. unfold tol. field. Qed.

Lemma band_lower (K : Q) : K * (1 - (5 # 10) / 100) == K * (1 - tol).
Proof. unfold tol. field. Qed.



End MoneynessProofs.

(** ** Credit spread calculator *)

Module SpreadProofs.

Import PyNum DataFormatter App.
Open Scope Q_scope.

(** A spread that passes validation: both legs of one type, the sold
    strike below the bought one for calls and above it for puts. *)
Definition valid_spread (sell_type buy_type : OptionType)
    (sell_strike buy_strike : Q) : Prop :=
  sell_type = buy_type /\
  match sell_type with
  | Call => sell_strike < buy_strike
  | Put => buy_strike < sell_strike
  end.


Lemma OptionType_eqb_eq (a b : OptionType) : OptionType_eqb a b = true <-> a = b.
Proof. destruct a, b; cbn; split; congruence. Qed.

(** The formatter's validator accepts exactly the valid spreads. *)
Lemma validate_spread_parameters_valid (sell_strike buy_strike : Q)
    (sell_type buy_type : OptionType) :
  fst (validate_spread_parameters sell_strike buy_strike sell_type buy_type) = true
  <-> valid_spread sell_type buy_type sell_strike buy_strike.
Proof.
  unfold validate_spread_parameters, valid_spread.
  destruct sell_type, buy_type; cbn.
  all: try (split; [discriminate | intros [E _]; discriminate]).
  - destruct (Qle_bool buy_strike sell_strike) eqn:E; cbn.
    + apply Qle_bool_iff in E. split; [discriminate | intros [_ H]; lra].
    + apply Qle_bool_false in E. tauto.
  - destruct (Qle_bool sell_strike buy_strike) eqn:E; cbn.
    + apply Qle_bool_iff in E. split; [discriminate | intros [_ H]; lra].
    + apply Qle_bool_false in E. tauto.
Qed.







End SpreadProofs.

(** ** Chain aggregation: put/call ratios *)

Module RatioProofs.

Import PyNum DataFormatter App.
Open Scope Q_scope.

(** The total of one column over the rows of one type. *)
Definition column_total (col : ChainRow -> Z) (ty : OptionType)
    (chain : list ChainRow) : Z :=
  sum_Z (map col (rows_of ty chain)).



Lemma py_round_0 (n : nat) : py_round 0 n == 0.
Proof.
  unfold py_round.
  rewrite (round_half_even_comp (0 * pow10 n) 0) by apply Qmult_0_l.
  change (round_half_even 0) with 0%Z. apply Qmult_0_l.
Qed.


Lemma aggregate_ratio_volume (chain : list ChainRow) :
  let tc := column_total row_volume Call chain in
  let tp := column_total row_volume Put chain in
  pc_ratio_volume (aggregate_option_metrics chain)
  == py_round (if (0 <? tc)%Z then inject_Z tp / inject_Z tc else 0) 2.
Proof.
  destruct chain; cbv zeta; [| reflexivity].
  cbn. reflexivity.
Qed.

Lemma aggregate_ratio_oi (chain : list ChainRow) :
  let tc := column_total row_open_interest Call chain in
  let tp := column_total row_open_interest Put chain in
  pc_ratio_oi (aggregate_option_metrics chain)
  == py_round (if (0 <? tc)%Z then inject_Z tp / inject_Z tc else 0) 2.
Proof.
  destruct chain; cbv zeta; [| reflexivity].
  cbn. reflexivity.
Qed.

Lemma summary_metrics (chain : list ChainRow) :
  let s := summary_statistics chain in
  volume_ratio_metric s
    = fst (pc_ratio_block (column_total row_volume Put chain)
                          (column_total row_volume Call chain)) /\
  oi_ratio_metric s
    = fst (pc_ratio_block (column_total row_open_interest Put chain)
                          (column_total row_open_interest Call chain)) /\
  sentiment_metric s
    = sentiment_block
        (snd (pc_ratio_block (column_total row_volume Put chain)
                             (column_total row_volume Call chain)))
        (snd (pc_ratio_block (column_total row_open_interest Put chain)
                             (column_total row_open_interest Call chain))).
Proof.
  cbv zeta. unfold summary_statistics, column_total.
  destruct (pc_ratio_block _ _) as [a b].
  destruct (pc_ratio_block _ _) as [c d].
  cbn. auto.
Qed.




End RatioProofs.

(** ** Chain aggregation: sentiment label *)

Module SentimentProofs.

Import PyNum DataFormatter App.
Open Scope Q_scope.



(** The average of the ratios that are strictly positive. *)
Inductive positive_average (v oi : Q) : option Q -> Prop :=
| avg_both : 0 < v -> 0 < oi -> positive_average v oi (Some ((v + oi) / 2))
| avg_volume : 0 < v -> oi <= 0 -> positive_average v oi (Some v)
| avg_oi : v <= 0 -> 0 < oi -> positive_average v oi (Some oi)
| avg_none : v <= 0 -> oi <= 0 -> positive_average v oi None.





Lemma positive_average_total (v oi : Q) : exists a, positive_average v oi a.
Proof.
  destruct (Qlt_le_dec 0 v), (Qlt_le_dec 0 oi); eexists;
    [apply avg_both | apply avg_volume | apply avg_oi | apply avg_none]; assumption.
Qed.




End SentimentProofs.

(** ** Chain aggregation: ATM strike and display window *)

Module WindowProofs.

Import PyNum PyList DataFormatter App.
Open Scope Q_scope.

(** The elements of [l] whose position, counted from [i], satisfies
    [keep]. *)
Fixpoint select_indices {A : Type} (keep : Z -> bool) (i : Z) (l : list A) : list A :=
  match l with
  | [] => []
  | x :: t =>
      if keep i then x :: select_indices keep (i + 1) t
      else select_indices keep (i + 1) t
  end.

(** The strikes at the positions [atm - n .. atm + n] that exist. *)
Definition clipped_window {A : Type} (l : list A) (atm n : Z) : list A :=
  select_indices (fun j => (atm - n <=? j)%Z && (j <=? atm + n)%Z) 0 l.

(** Distance of a strike from the stock price. *)
Definition dist (p s : Q) : Q := Qabs (s - p).

(** [i] is the position of the strike nearest to [p], the smallest one
    when two strikes are equally near. *)
Definition atm_position (strikes : list Q) (p : Q) (i : nat) (s : Q) : Prop :=
  nth_error strikes i = Some s /\
  (forall s', In s' strikes -> dist p s <= dist p s') /\
  (forall s', In s' strikes -> dist p s' == dist p s -> s <= s').

Lemma select_indices_slice {A : Type} (lo hi : Z) (l : list A) (i : Z) :
  select_indices (fun j => (lo <=? j)%Z && (j <? hi)%Z) i l
  = firstn (Z.to_nat (Z.min hi (i + Z.of_nat (length l)) - Z.max lo i))
           (skipn (Z.to_nat (Z.max lo i - i)) l).
Proof.
  revert i. induction l as [| x t IH]; intro i.
  - cbn. now rewrite skipn_nil, firstn_nil.
  - cbn [select_indices length]. rewrite IH. clear IH.
    rewrite Nat2Z.inj_succ.
    destruct (Z.leb_spec lo i) as [L | L]; cbn [andb].
    + destruct (Z.ltb_spec i hi) as [H | H].
      * replace (Z.max lo i - i)%Z with 0%Z by lia.
        replace (Z.max lo (i + 1) - (i + 1))%Z with 0%Z by lia.
        cbn [Z.to_nat skipn].
        replace (Z.to_nat (Z.min hi (i + Z.succ (Z.of_nat (length t))) - Z.max lo i))
          with (S (Z.to_nat (Z.min hi (i + 1 + Z.of_nat (length t)) - Z.max lo (i + 1))))
          by lia.
        reflexivity.
      * replace (Z.to_nat (Z.min hi (i + 1 + Z.of_nat (length t)) - Z.max lo (i + 1)))
          with O by lia.
        replace (Z.to_nat (Z.min hi (i + Z.succ (Z.of_nat (length t))) - Z.max lo i))
          with O by lia.
        reflexivity.
    + replace (Z.to_nat (Z.max lo i - i))
        with (S (Z.to_nat (Z.max lo (i + 1) - (i + 1)))) by lia.
      cbn [skipn]. f_equal. lia.
Qed.

Lemma select_indices_ext {A : Type} (f g : Z -> bool) (l : list A) (i : Z) :
  (forall j, f j = g j) -> select_indices f i l = select_indices g i l.
Proof.
  intro E. revert i. induction l as [| x t IH]; intro i; cbn; [reflexivity|].
  now rewrite E, IH.
Qed.

(** The slice the code takes is the clipped window. *)
Lemma window_slice {A : Type} (l : list A) (atm : nat) (n : Z) :
  (atm < length l)%nat -> (0 <= n)%Z ->
  py_slice l (Z.max 0 (Z.of_nat atm - n))
             (Z.min (Z.of_nat (length l)) (Z.of_nat atm + n + 1))
  = clipped_window l (Z.of_nat atm) n.
Proof.
  intros Hi Hn. unfold clipped_window.
  rewrite (select_indices_ext _
             (fun j => (Z.of_nat atm - n <=? j)%Z && (j <? Z.of_nat atm + n + 1)%Z)).
  2:{ intro j. f_equal. apply eq_true_iff_eq.
      rewrite Z.leb_le, Z.ltb_lt. lia. }
  rewrite select_indices_slice.
  unfold py_slice, slice_bound.
  destruct (Z.ltb_spec (Z.max 0 (Z.of_nat atm - n)) 0); [lia|].
  destruct (Z.ltb_spec (Z.min (Z.of_nat (length l)) (Z.of_nat atm + n + 1)) 0); [lia|].
  f_equal; [| f_equal]; lia.
Qed.

Section FirstMinimum.

Variable key : Q -> Q.

Let step (best y : Q) : Q := if Qltb (key y) (key best) then y else best.

(** The scan of [min]: the best element so far splits the part already
    read into strictly worse elements before it and no better ones
    after it. *)
Lemma fold_min_split (t : list Q) :
  forall (pre : list Q) (b : Q) (mid : list Q),
    (forall s, In s pre -> key b < key s) ->
    (forall s, In s mid -> key b <= key s) ->
    exists l1 b' l2,
      pre ++ b :: mid ++ t = l1 ++ b' :: l2 /\
      fold_left step t b = b' /\
      (forall s, In s l1 -> key b' < key s) /\
      (forall s, In s l2 -> key b' <= key s).
Proof.
  induction t as [| y t IH]; intros pre b mid Hpre Hmid.
  - exists pre, b, mid. rewrite app_nil_r. auto.
  - cbn [fold_left]. unfold step at 2.
    destruct (Qltb (key y) (key b)) eqn:E.
    + apply Qltb_lt in E.
      destruct (IH (pre ++ b :: mid) y []) as (l1 & b' & l2 & E1 & E2 & H1 & H2).
      * intros s Hs. apply in_app_or in Hs. destruct Hs as [Hs | [<- | Hs]].
        -- specialize (Hpre s Hs). lra.
        -- exact E.
        -- specialize (Hmid s Hs). lra.
      * intros s [].
      * exists l1, b', l2. split; [| auto].
        rewrite <- E1. rewrite <- app_assoc. reflexivity.
    + apply Qltb_ge in E.
      destruct (IH pre b (mid ++ [y])) as (l1 & b' & l2 & E1 & E2 & H1 & H2).
      * exact Hpre.
      * intros s Hs. apply in_app_or in Hs. destruct Hs as [Hs | [<- | []]]; auto.
      * exists l1, b', l2. split; [| auto].
        rewrite <- E1. rewrite <- app_assoc. reflexivity.
Qed.

Lemma py_min_by_first (l : list Q) :
  l <> [] ->
  exists l1 b l2,
    l = l1 ++ b :: l2 /\
    py_min_by key l = Ok b /\
    (forall s, In s l1 -> key b < key s) /\
    (forall s, In s l2 -> key b <= key s).
Proof.
  destruct l as [| x t]; [congruence | intros _].
  destruct (fold_min_split t [] x []) as (l1 & b & l2 & E1 & E2 & H1 & H2).
  - intros s [].
  - intros s [].
  - exists l1, b, l2. cbn in E1. unfold py_min_by. fold step.
    rewrite E2. auto.
Qed.

End FirstMinimum.

Lemma py_index_first (b : Q) (l1 l2 : list Q) :
  (forall s, In s l1 -> ~ s == b) ->
  py_index b (l1 ++ b :: l2) = Ok (length l1).
Proof.
  induction l1 as [| y t IH]; intro H; cbn [app py_index length].
  - replace (Qeq_bool b b) with true; [reflexivity|].
    symmetry. apply Qeq_bool_iff. reflexivity.
  - destruct (Qeq_bool y b) eqn:E.
    + apply Qeq_bool_iff in E. exfalso. apply (H y); [now left | exact E].
    + rewrite IH; [reflexivity|]. intros s Hs. apply H. now right.
Qed.

Lemma sorted_after (l1 : list Q) (b : Q) (l2 : list Q) :
  StronglySorted Qlt (l1 ++ b :: l2) -> forall s, In s l2 -> b < s.
Proof.
  induction l1 as [| y t IH]; cbn [app]; intros H s Hs.
  - apply StronglySorted_inv in H. destruct H as [_ F].
    rewrite Forall_forall in F. now apply F.
  - apply StronglySorted_inv in H. destruct H as [H _]. now apply IH.
Qed.

Lemma dist_comp (p s s' : Q) : s == s' -> dist p s == dist p s'.
Proof. intro E. unfold dist. now rewrite E. Qed.

(** The ATM strike and its position, as both strike-window computations
    find them. *)
Lemma atm_lookup (strikes : list Q) (p : Q) :
  strikes <> [] ->
  StronglySorted Qlt strikes ->
  exists i s,
    py_min_by (fun x => Qabs (x - p)) strikes = Ok s /\
    py_index s strikes = Ok i /\
    (i < length strikes)%nat /\
    atm_position strikes p i s.
Proof.
  intros Hne Hsort.
  destruct (py_min_by_first (fun x => Qabs (x - p)) strikes Hne)
    as (l1 & b & l2 & E & Hmin & H1 & H2).
  exists (length l1), b. split; [exact Hmin|].
  assert (N : forall s, In s l1 -> ~ s == b).
  { intros s Hs Q. specialize (H1 s Hs). cbv beta in H1.
    pose proof (dist_comp p s b Q) as D. unfold dist in D. lra. }
  subst strikes. split; [now apply py_index_first|].
  split; [rewrite length_app; cbn; lia|].
  unfold atm_position. split; [| split].
  - rewrite nth_error_app2 by lia. now rewrite Nat.sub_diag.
  - intros s' Hs. unfold dist. apply in_app_or in Hs.
    destruct Hs as [Hs | [<- | Hs]].
    + apply Qlt_le_weak. now apply (H1 s').
    + apply Qle_refl.
    + now apply (H2 s').
  - intros s' Hs Ht. unfold dist in Ht. apply in_app_or in Hs.
    destruct Hs as [Hs | [<- | Hs]].
    + specialize (H1 s' Hs). cbv beta in H1. lra.
    + apply Qle_refl.
    + apply Qlt_le_weak. now apply (sorted_after l1 b l2).
Qed.

Lemma far_from_price (p x : Q) :
  0 < p -> (Qltb 20 (x / p * 100) = true <-> (20 # 100) * p < x).
Proof.
  intro Hp. rewrite Qltb_lt.
  assert (E : x / p * p == x) by (field; lra).
  set (y := x / p) in *. split; intro H; nra.
Qed.

(** C6 (as the code has it): for a non-empty ascending list of strikes,
    a positive stock price and a half width of zero or more, both
    computations locate the strike nearest to the stock price (the
    smallest one on a tie).  The dashboard block returns the strikes at
    the positions atm - half_width .. atm + half_width that exist when
    that strike is within 20 percent of the stock price, and the whole
    list when it is farther; the formatter's
    [get_strike_range_around_atm] returns the clipped window in either
    case. *)
Theorem strike_window_spec (strikes : list Q) (p : Q) (n : Z) :
  strikes <> [] ->
  StronglySorted Qlt strikes ->
  0 < p ->
  (0 <= n)%Z ->
  exists i s,
    atm_position strikes p i s /\
    (dist p s <= (20 # 100) * p ->
       display_strikes strikes p n = Ok (clipped_window strikes (Z.of_nat i) n)) /\
    ((20 # 100) * p < dist p s ->
       display_strikes strikes p n = Ok strikes) /\
    get_strike_range_around_atm strikes p n
      = Ok (clipped_window strikes (Z.of_nat i) n).
Proof.
  intros Hne Hsort Hp Hn.
  destruct (atm_lookup strikes p Hne Hsort) as (i & s & Hmin & Hidx & Hlen & Hatm).
  exists i, s. split; [exact Hatm|].
  assert (Hz : Qeq_bool p 0 = false).
  { destruct (Qeq_bool p 0) eqn:E; [| reflexivity].
    apply Qeq_bool_iff in E. lra. }
  pose proof (far_from_price p (Qabs (s - p)) Hp) as Hfar.
  unfold display_strikes, get_strike_range_around_atm, py_div.
  rewrite Hmin. cbn [bind]. rewrite Hidx. cbn [bind]. rewrite Hz. cbn [bind].
  fold (dist p s) in *.
  split; [| split].
  - intro Hd. destruct (Qltb 20 (dist p s / p * 100)) eqn:E.
    + destruct Hfar as [Hf _]. specialize (Hf eq_refl). lra.
    + now rewrite window_slice.
  - intro Hd. apply Hfar in Hd. now rewrite Hd.
  - destruct strikes; [congruence|]. now rewrite window_slice.
Qed.

(** The sample of the design: strikes 90..110, stock price 101, half
    width 1 give the window 95, 100, 105. *)
Lemma strike_window_spec_witness :
  let strikes := [90; 95; 100; 105; 110] in
  strikes <> [] /\ StronglySorted Qlt strikes /\ 0 < 101 /\ (0 <= 1)%Z /\
  display_strikes strikes 101 1 = Ok [95; 100; 105] /\
  clipped_window strikes 2 1 = [95; 100; 105] /\
  exists i s,
    atm_position strikes 101 i s /\
    (dist 101 s <= (20 # 100) * 101 ->
       display_strikes strikes 101 1 = Ok (clipped_window strikes (Z.of_nat i) 1)) /\
    ((20 # 100) * 101 < dist 101 s -> display_strikes strikes 101 1 = Ok strikes) /\
    get_strike_range_around_atm strikes 101 1
      = Ok (clipped_window strikes (Z.of_nat i) 1).
Proof.
  cbv zeta.
  assert (N : [90; 95; 100; 105; 110] <> []) by discriminate.
  assert (S : StronglySorted Qlt [90; 95; 100; 105; 110]).
  { repeat (constructor; [| repeat (constructor; [reflexivity|]); constructor]).
    constructor. }
  assert (P : 0 < 101) by reflexivity.
  assert (H : (0 <= 1)%Z) by discriminate.
  repeat (split; [assumption|]).
  split; [reflexivity|]. split; [reflexivity|].
  exact (strike_window_spec _ _ _ N S P H).
Defined.

(** C6 as worded fails on the formatter's function: with strikes 200,
    210, 220 and a stock price of 100 the nearest strike is 100 percent
    away, and the window [200] is returned, not the whole list. *)
Lemma strike_window_counterexample :
  (20 # 100) * 100 < dist 100 200 /\
  get_strike_range_around_atm [200; 210; 220] 100 0 = Ok [200] /\
  get_strike_range_around_atm [200; 210; 220] 100 0 <> Ok [200; 210; 220].
Proof.
  split; [reflexivity|]. split; [reflexivity | discriminate].
Qed.

End WindowProofs.

(** ** Black-Scholes evaluator *)

Module BlackScholesProofs.

Import Reals Factorial ROrderedType Lra.
Import Normal NumPy PolygonAPI.
Open Scope R_scope.

(** *** The closed forms of the design *)

Definition bs_d1 (S K T r sigma : R) : R :=
  (ln (S / K) + (r + sigma ^ 2 / 2) * T) / (sigma * sqrt T).

Definition bs_d2 (S K T r sigma : R) : R :=
  bs_d1 S K T r sigma - sigma * sqrt T.

Definition bs_price (S K T r sigma : R) (ty : OptionType) : R :=
  let d1 := bs_d1 S K T r sigma in
  let d2 := bs_d2 S K T r sigma in
  match ty with
  | Call => S * norm_cdf d1 - K * exp (- r * T) * norm_cdf d2
  | Put => K * exp (- r * T) * norm_cdf (- d2) - S * norm_cdf (- d1)
  end.

Definition bs_delta (S K T r sigma : R) (ty : OptionType) : R :=
  match ty with
  | Call => norm_cdf (bs_d1 S K T r sigma)
  | Put => norm_cdf (bs_d1 S K T r sigma) - 1
  end.

Definition bs_gamma (S K T r sigma : R) : R :=
  norm_pdf (bs_d1 S K T r sigma) / (S * sigma * sqrt T).

Definition bs_vega (S K T r sigma : R) : R :=
  S * norm_pdf (bs_d1 S K T r sigma) * sqrt T / 100.

Definition bs_theta (S K T r sigma : R) (ty : OptionType) : R :=
  let d1 := bs_d1 S K T r sigma in
  let d2 := bs_d2 S K T r sigma in
  match ty with
  | Call =>
      (- S * norm_pdf d1 * sigma / (2 * sqrt T)
       - r * K * exp (- r * T) * norm_cdf d2) / 365
  | Put =>
      (- S * norm_pdf d1 * sigma / (2 * sqrt T)
       + r * K * exp (- r * T) * norm_cdf (- d2)) / 365
  end.

Definition bs_rho (S K T r sigma : R) (ty : OptionType) : R :=
  let d2 := bs_d2 S K T r sigma in
  match ty with
  | Call => K * T * exp (- r * T) * norm_cdf d2 / 100
  | Put => - K * T * exp (- r * T) * norm_cdf (- d2) / 100
  end.

(** The Greeks record with every closed form rounded to four decimals. *)
Definition rounded_greeks (S K T r sigma : R) (ty : OptionType) : Greeks :=
  mkGreeks (Fin (round_to (bs_delta S K T r sigma ty) 4))
           (Fin (round_to (bs_gamma S K T r sigma) 4))
           (Fin (round_to (bs_theta S K T r sigma ty) 4))
           (Fin (round_to (bs_vega S K T r sigma) 4))
           (Fin (round_to (bs_rho S K T r sigma ty) 4)).

Ltac nonzero :=
  repeat apply Rmult_integral_contrapositive_currified;
  try assumption; try lra.

Lemma d1_code (S K T r sigma : R) :
  sigma <> 0 -> sqrt T <> 0 ->
  (ln (S / K) + (r + 0.5 * sigma ^ 2) * T) / (sigma * sqrt T) = bs_d1 S K T r sigma.
Proof.
  intros. unfold bs_d1.
  replace (0.5 * sigma ^ 2) with (sigma ^ 2 / 2) by lra.
  reflexivity.
Qed.

(** With a positive quotient S / K, positive T and sigma, nothing raises
    and every intermediate value is a number. *)
Lemma evaluator_closed_form (S K T r sigma : R) (ty : OptionType) :
  S <> 0 -> K <> 0 -> 0 < S / K -> 0 < T -> 0 < sigma ->
  calculate_greeks S K T r sigma ty = Ok (rounded_greeks S K T r sigma ty) /\
  _black_scholes_price S K T r sigma ty = Ok (Fin (bs_price S K T r sigma ty)).
Proof.
  intros HS HK Hq HT Hs.
  assert (HsT : 0 < sqrt T) by now apply sqrt_lt_R0.
  assert (G1 : Rleb T 0 = false) by now apply Rleb_gt.
  assert (G2 : Rleb sigma 0 = false) by now apply Rleb_gt.
  unfold calculate_greeks, _black_scholes_price, _d1.
  rewrite G1, G2. cbn [orb].
  rewrite (py_divR_nonzero S K HK). cbn [bind].
  rewrite (np_log_pos _ Hq), (np_sqrt_nonneg T) by lra.
  cbn [fadd fmul].
  rewrite fdiv_fin by nonzero.
  rewrite d1_code by lra.
  split.
  - destruct ty; cbn [fadd fsub fmul fneg cdf pdf np_exp].
    all: repeat (rewrite fdiv_fin by nonzero; cbn [fadd fsub fmul fneg cdf pdf np_exp]).
    all: cbn [np_round]; unfold rounded_greeks.
    all: f_equal; f_equal; f_equal; f_equal.
    all: unfold bs_delta, bs_gamma, bs_theta, bs_rho, bs_vega, bs_d2; cbv zeta.
    all: try reflexivity; try (field; nonzero).
  - destruct ty; cbn [fadd fsub fmul fneg cdf pdf np_exp].
    all: f_equal; f_equal; unfold bs_price, bs_d2; cbv zeta; try reflexivity; try ring.
Qed.

(** C3: with T <= 0 or sigma <= 0 the Greeks are all zero and nothing is
    raised; with T <= 0 the price is the intrinsic value, max(0, S - K)
    for a call and max(0, K - S) for a put. *)
Theorem degenerate_inputs (S K T r sigma : R) (ty : OptionType) :
  (T <= 0 \/ sigma <= 0 ->
     calculate_greeks S K T r sigma ty
       = Ok (mkGreeks (Fin 0) (Fin 0) (Fin 0) (Fin 0) (Fin 0))) /\
  (T <= 0 ->
     _black_scholes_price S K T r sigma ty
       = Ok (Fin (match ty with
                  | Call => Rmax 0 (S - K)
                  | Put => Rmax 0 (K - S)
                  end))).
Proof.
  split.
  - intros [H | H]; apply Rleb_le in H; unfold calculate_greeks; rewrite H;
      [reflexivity | now rewrite orb_true_r].
  - intro H. apply Rleb_le in H. unfold _black_scholes_price. rewrite H.
    destruct ty; now rewrite py_maxR_Rmax.
Qed.

(** An expired call 10 in the money, and a put with no volatility. *)
Lemma degenerate_inputs_witness :
  0 <= 0 /\
  _black_scholes_price 110 100 0 0.05 0.2 Call = Ok (Fin 10) /\
  (1 <= 0 \/ 0 <= 0) /\
  calculate_greeks 110 100 1 0.05 0 Put
    = Ok (mkGreeks (Fin 0) (Fin 0) (Fin 0) (Fin 0) (Fin 0)).
Proof.
  assert (HT : 0 <= 0) by lra.
  assert (Hs : 1 <= 0 \/ 0 <= 0) by lra.
  destruct (degenerate_inputs 110 100 0 0.05 0.2 Call) as [_ P].
  destruct (degenerate_inputs 110 100 1 0.05 0 Put) as [G _].
  split; [exact HT|]. split.
  - rewrite (P HT). rewrite Rmax_right by lra. do 2 f_equal. lra.
  - split; [exact Hs | exact (G Hs)].
Defined.

(** C4 (as the code has it): for S, K, T, sigma > 0 each of the five
    Greeks is its closed form rounded to four decimals, the rounding
    being the last step; the price is the closed form itself, not
    rounded. *)
Theorem rounding_at_boundary (S K T r sigma : R) (ty : OptionType) :
  0 < S -> 0 < K -> 0 < T -> 0 < sigma ->
  calculate_greeks S K T r sigma ty = Ok (rounded_greeks S K T r sigma ty) /\
  _black_scholes_price S K T r sigma ty = Ok (Fin (bs_price S K T r sigma ty)).
Proof.
  intros HS HK HT Hs.
  apply evaluator_closed_form; try lra.
  now apply Rdiv_lt_0_compat.
Qed.

Lemma rounding_at_boundary_witness :
  (0 < 100 /\ 0 < 105 /\ 0 < 1 /\ 0 < 0.25) /\
  calculate_greeks 100 105 1 0.05 0.25 Call
    = Ok (rounded_greeks 100 105 1 0.05 0.25 Call) /\
  _black_scholes_price 100 105 1 0.05 0.25 Call
    = Ok (Fin (bs_price 100 105 1 0.05 0.25 Call)).
Proof.
  assert (H : 0 < 100 /\ 0 < 105 /\ 0 < 1 /\ 0 < 0.25) by lra.
  split; [exact H|].
  destruct H as (A & B & C & D).
  exact (rounding_at_boundary 100 105 1 0.05 0.25 Call A B C D).
Defined.

Lemma round_to_small (p : R) : 0 < p < 1 / 20000 -> round_to p 4 <> p.
Proof.
  intros [L U]. unfold round_to.
  rewrite Rround_half_even_small by (simpl; lra).
  unfold Rdiv. rewrite Rmult_0_l. lra.
Qed.

(** C4 as worded fails for the price: a share and a strike of one
    hundredth of a cent, one year, no interest and 20 percent volatility
    give a call price strictly between 0 and 0.00005, which rounding to
    four decimals would turn into 0; the price returned is not rounded. *)
Lemma price_not_rounded_counterexample :
  exists p,
    _black_scholes_price (1 / 10000) (1 / 10000) 1 0 (1 / 5) Call = Ok (Fin p) /\
    round_to p 4 <> p.
Proof.
  destruct (evaluator_closed_form (1 / 10000) (1 / 10000) 1 0 (1 / 5) Call)
    as [_ P]; try lra.
  eexists. split; [exact P|].
  apply round_to_small.
  assert (D1 : bs_d1 (1 / 10000) (1 / 10000) 1 0 (1 / 5) = 1 / 10).
  { unfold bs_d1.
    replace (1 / 10000 / (1 / 10000)) with 1 by lra.
    rewrite ln_1, sqrt_1. lra. }
  unfold bs_price, bs_d2. cbv zeta. rewrite D1, sqrt_1.
  replace (- 0 * 1) with 0 by lra. rewrite exp_0.
  replace (1 / 10 - 1 / 5 * 1) with (- (1 / 10)) by lra.
  pose proof (norm_cdf_gap (1 / 10)) as G.
  lra.
Qed.

(** C9: for S, K, T, sigma > 0 and any rate, both prices are numbers and
    call - put = S - K exp(-r T), exactly and so within 1e-6. *)
Theorem put_call_parity (S K T r sigma : R) :
  0 < S -> 0 < K -> 0 < T -> 0 < sigma ->
  exists c p,
    _black_scholes_price S K T r sigma Call = Ok (Fin c) /\
    _black_scholes_price S K T r sigma Put = Ok (Fin p) /\
    c - p = S - K * exp (- r * T) /\
    Rabs (c - p - (S - K * exp (- r * T))) <= 1 / 1000000.
Proof.
  intros HS HK HT Hs.
  assert (Hq : 0 < S / K) by now apply Rdiv_lt_0_compat.
  destruct (evaluator_closed_form S K T r sigma Call) as [_ C]; try lra.
  destruct (evaluator_closed_form S K T r sigma Put) as [_ P]; try lra.
  exists (bs_price S K T r sigma Call), (bs_price S K T r sigma Put).
  split; [exact C|]. split; [exact P|].
  assert (E : bs_price S K T r sigma Call - bs_price S K T r sigma Put
              = S - K * exp (- r * T)).
  { unfold bs_price. cbv zeta. rewrite !norm_cdf_neg. ring. }
  split; [exact E|].
  rewrite E. unfold Rminus. rewrite Rplus_opp_r, Rabs_R0. lra.
Qed.

Lemma put_call_parity_witness :
  (0 < 100 /\ 0 < 105 /\ 0 < 1 /\ 0 < 0.25) /\
  exists c p,
    _black_scholes_price 100 105 1 0.05 0.25 Call = Ok (Fin c) /\
    _black_scholes_price 100 105 1 0.05 0.25 Put = Ok (Fin p) /\
    c - p = 100 - 105 * exp (- (0.05) * 1) /\
    Rabs (c - p - (100 - 105 * exp (- (0.05) * 1))) <= 1 / 1000000.
Proof.
  assert (H : 0 < 100 /\ 0 < 105 /\ 0 < 1 /\ 0 < 0.25) by lra.
  split; [exact H|].
  destruct H as (A & B & C & D).
  exact (put_call_parity 100 105 1 0.05 0.25 A B C D).
Defined.

(** No later step raises: once S / K is computed, a result is returned. *)
Lemma returns_when_strike_nonzero (S K T r sigma : R) (ty : OptionType) :
  K <> 0 ->
  exists g p,
    calculate_greeks S K T r sigma ty = Ok g /\
    _black_scholes_price S K T r sigma ty = Ok p.
Proof.
  intro HK. unfold calculate_greeks, _black_scholes_price, _d1.
  rewrite (py_divR_nonzero S K HK).
  destruct (Rleb T 0), (Rleb sigma 0), ty; cbn [orb bind];
    eexists; eexists; split; reflexivity.
Qed.

Lemma raises_when_strike_zero (S T r sigma : R) (ty : OptionType) :
  0 < T -> 0 < sigma ->
  calculate_greeks S 0 T r sigma ty = Raise ZeroDivisionError /\
  _black_scholes_price S 0 T r sigma ty = Raise ZeroDivisionError.
Proof.
  intros HT Hs. apply Rleb_gt in HT, Hs.
  unfold calculate_greeks, _black_scholes_price, _d1.
  rewrite HT, Hs, py_divR_zero. split; reflexivity.
Qed.

Definition nan_greeks : Greeks := mkGreeks NaN NaN NaN NaN NaN.

(** A negative quotient S / K has no logarithm: NaN spreads to every
    result. *)
Lemma nan_when_ratio_negative (S K T r sigma : R) (ty : OptionType) :
  K <> 0 -> S / K < 0 -> 0 < T -> 0 < sigma ->
  calculate_greeks S K T r sigma ty = Ok nan_greeks /\
  _black_scholes_price S K T r sigma ty = Ok NaN.
Proof.
  intros HK Hq HT Hs. apply Rleb_gt in HT, Hs.
  unfold calculate_greeks, _black_scholes_price, _d1.
  rewrite HT, Hs, (py_divR_nonzero S K HK). cbn [orb bind].
  rewrite (np_log_neg _ Hq).
  destruct ty; split; reflexivity.
Qed.

(** C2 (as the code has it): for S <= 0 or K <= 0 (T, sigma > 0) neither
    computation checks its inputs.  K = 0 raises ZeroDivisionError from
    the division S / K.  Every other such input returns a result without
    raising: NaN throughout when S and K have opposite signs, and the
    usual closed forms, as numbers, when both are negative. *)
Theorem no_input_validation (S K T r sigma : R) (ty : OptionType) :
  S <= 0 \/ K <= 0 -> 0 < T -> 0 < sigma ->
  (K = 0 ->
     calculate_greeks S K T r sigma ty = Raise ZeroDivisionError /\
     _black_scholes_price S K T r sigma ty = Raise ZeroDivisionError) /\
  (K <> 0 ->
     exists g p,
       calculate_greeks S K T r sigma ty = Ok g /\
       _black_scholes_price S K T r sigma ty = Ok p /\
       (S / K < 0 -> g = nan_greeks /\ p = NaN) /\
       (S < 0 /\ K < 0 ->
          g = rounded_greeks S K T r sigma ty /\
          p = Fin (bs_price S K T r sigma ty))).
Proof.
  intros _ HT Hs. split.
  - intros ->. now apply raises_when_strike_zero.
  - intro HK.
    destruct (returns_when_strike_nonzero S K T r sigma ty HK) as (g & p & Hg & Hp).
    exists g, p. split; [exact Hg|]. split; [exact Hp|]. split.
    + intro Hq.
      destruct (nan_when_ratio_negative S K T r sigma ty HK Hq HT Hs) as [A B].
      rewrite Hg in A. rewrite Hp in B. split; congruence.
    + intros [HSn HKn].
      assert (Hq : 0 < S / K).
      { replace (S / K) with ((- S) / (- K)) by (field; lra).
        apply Rdiv_lt_0_compat; lra. }
      destruct (evaluator_closed_form S K T r sigma ty) as [A B]; try lra.
      rewrite Hg in A. rewrite Hp in B. split; congruence.
Qed.

Lemma no_input_validation_witness :
  (-100 <= 0 \/ 0 <= 0) /\ (-100 <= 0 \/ -100 <= 0) /\ 0 < 1 /\ 0 < 0.2 /\
  calculate_greeks (-100) 0 1 0.05 0.2 Put = Raise ZeroDivisionError /\
  exists g p,
    calculate_greeks (-100) (-100) 1 0.05 0.2 Call = Ok g /\
    _black_scholes_price (-100) (-100) 1 0.05 0.2 Call = Ok p /\
    g = rounded_greeks (-100) (-100) 1 0.05 0.2 Call /\
    p = Fin (bs_price (-100) (-100) 1 0.05 0.2 Call).
Proof.
  assert (A0 : -100 <= 0 \/ 0 <= 0) by lra.
  assert (A1 : -100 <= 0 \/ -100 <= 0) by lra.
  assert (B : 0 < 1) by lra.
  assert (C : 0 < 0.2) by lra.
  split; [exact A0|]. split; [exact A1|]. split; [exact B|]. split; [exact C|].
  destruct (no_input_validation (-100) 0 1 0.05 0.2 Put A0 B C) as [Z _].
  destruct (no_input_validation (-100) (-100) 1 0.05 0.2 Call A1 B C) as [_ N].
  split; [apply Z; reflexivity|].
  destruct N as (g & p & Hg & Hp & _ & Hf); [lra|].
  exists g, p. destruct Hf as [F1 F2]; [lra|]. auto.
Defined.

(** C2 as worded fails: a share price of -100 against a strike of 100
    raises nothing; the Greeks and the price come back as NaN. *)
Lemma negative_price_counterexample :
  calculate_greeks (-100) 100 1 0.05 0.2 Call = Ok nan_greeks /\
  _black_scholes_price (-100) 100 1 0.05 0.2 Call = Ok NaN.
Proof.
  apply nan_when_ratio_negative; lra.
Qed.

End BlackScholesProofs.

(** * Further properties of the code *)

(** ** Rounding to a number of decimals *)

Module RoundingFacts.

Import PyNum.
Open Scope Q_scope.

Lemma round_half_even_near (x : Q) :
  inject_Z (round_half_even x) - (1 # 2) <= x <= inject_Z (round_half_even x) + (1 # 2).
Proof.
  unfold round_half_even.
  pose proof (Qfloor_le x) as L. pose proof (Qlt_floor x) as U.
  rewrite inject_Z_plus in U. change (inject_Z 1) with 1 in U.
  destruct (Qcompare_spec (x - inject_Z (Qfloor x)) (1 # 2)) as [E | E | E].
  - destruct (Z.even (Qfloor x));
      [| rewrite inject_Z_plus; change (inject_Z 1) with 1]; split; lra.
  - split; lra.
  - rewrite inject_Z_plus. change (inject_Z 1) with 1. split; lra.
Qed.

Lemma round_half_even_mono (x y : Q) :
  x <= y -> (round_half_even x <= round_half_even y)%Z.
Proof.
  intro H. pose proof (Qfloor_resp_le _ _ H) as F.
  destruct (Z.eq_dec (Qfloor x) (Qfloor y)) as [E | N].
  - unfold round_half_even. rewrite E.
    destruct (Qcompare_spec (x - inject_Z (Qfloor y)) (1 # 2)) as [A | A | A];
    destruct (Qcompare_spec (y - inject_Z (Qfloor y)) (1 # 2)) as [B | B | B];
    try lia; try (exfalso; lra); destruct (Z.even (Qfloor y)); lia.
  - assert (S : (Qfloor x + 1 <= Qfloor y)%Z) by lia.
    apply Z.le_trans with (Qfloor x + 1)%Z;
      [| apply Z.le_trans with (Qfloor y); [exact S|]].
    + unfold round_half_even.
      destruct (Qcompare (x - inject_Z (Qfloor x)) (1 # 2));
        try destruct (Z.even (Qfloor x)); lia.
    + unfold round_half_even.
      destruct (Qcompare (y - inject_Z (Qfloor y)) (1 # 2));
        try destruct (Z.even (Qfloor y)); lia.
Qed.

Lemma round_half_even_Z (k : Z) : round_half_even (inject_Z k) = k.
Proof.
  unfold round_half_even. rewrite Qfloor_Z.
  destruct (Qcompare_spec (inject_Z k - inject_Z k) (1 # 2)) as [A | A | A];
    try reflexivity; exfalso; lra.
Qed.

Lemma pow10_pos (n : nat) : 0 < pow10 n.
Proof.
  unfold pow10. rewrite <- (Zlt_Qlt 0). apply Z.pow_pos_nonneg; lia.
Qed.

(** Rounding keeps the order. *)
Lemma py_round_mono (x y : Q) (n : nat) : x <= y -> py_round x n <= py_round y n.
Proof.
  intro H. unfold py_round. pose proof (pow10_pos n) as P.
  assert (M : (round_half_even (x * pow10 n) <= round_half_even (y * pow10 n))%Z).
  { apply round_half_even_mono. nra. }
  rewrite Zle_Qle in M.
  apply Qmult_le_compat_r; [exact M|].
  apply Qlt_le_weak, Qinv_lt_0_compat, P.
Qed.

(** A number with at most [n] decimals rounds to itself. *)
Lemma py_round_exact (k : Z) (n : nat) :
  py_round (inject_Z k / pow10 n) n == inject_Z k / pow10 n.
Proof.
  unfold py_round. pose proof (pow10_pos n) as P.
  rewrite (round_half_even_comp _ (inject_Z k)).
  - now rewrite round_half_even_Z.
  - field. lra.
Qed.

(** Rounding moves a number by at most half a unit of the last decimal. *)
Lemma py_round_near (x : Q) (n : nat) :
  Qabs (py_round x n - x) <= (1 # 2) / pow10 n.
Proof.
  unfold py_round. pose proof (pow10_pos n) as P.
  pose proof (round_half_even_near (x * pow10 n)) as [L U].
  set (r := inject_Z (round_half_even (x * pow10 n))) in *.
  apply Qabs_Qle_condition.
  assert (E : r / pow10 n - x == (r - x * pow10 n) / pow10 n) by (field; lra).
  rewrite E.
  split.
  - apply Qle_shift_div_l; [exact P|].
    assert (F : - ((1 # 2) / pow10 n) * pow10 n == - (1 # 2)) by (field; lra).
    rewrite F. lra.
  - apply Qle_shift_div_r; [exact P|].
    assert (F : (1 # 2) / pow10 n * pow10 n == 1 # 2) by (field; lra).
    rewrite F. lra.
Qed.

End RoundingFacts.

(** ** The estimated quote *)

Module QuoteProofs.

Import PyNum DataFormatter RoundingFacts.
Open Scope Q_scope.

(** The two edges of the estimate, for the percentage its tier gives. *)
Lemma estimate_edges (last_price : Q) (volume : Z) (ty : OptionType) :
  0 < last_price ->
  exists pct,
    2 # 100 <= pct <= 25 # 100 /\
    estimate_bid_ask_spread last_price volume ty
    = (py_max (1 # 100) (py_round (last_price - last_price * pct / 2) 2),
       py_round (last_price + last_price * pct / 2) 2).
Proof.
  intro H. unfold estimate_bid_ask_spread.
  apply Qle_bool_false in H. rewrite H.
  destruct (10000 <? volume)%Z;
    [exists (2 # 100); split; [split; discriminate | reflexivity]|].
  destruct (1000 <? volume)%Z;
    [exists (4 # 100); split; [split; discriminate | reflexivity]|].
  destruct (100 <? volume)%Z;
    [exists (8 # 100); split; [split; discriminate | reflexivity]|].
  destruct (10 <? volume)%Z;
    [exists (15 # 100) | exists (25 # 100)];
    (split; [split; discriminate | reflexivity]).
Qed.

Lemma half_spread_bounds (last_price pct : Q) :
  0 <= last_price -> 0 <= pct <= 25 # 100 ->
  0 <= last_price * pct / 2 <= last_price * (125 # 1000).
Proof.
  intros H [P1 P2].
  assert (A : 0 <= last_price * pct) by (apply Qmult_le_0_compat; assumption).
  assert (B : last_price * pct <= last_price * (25 # 100))
    by nra.
  assert (E : last_price * pct / 2 == last_price * pct * (1 # 2)) by field.
  rewrite E. split; lra.
Qed.

Lemma py_max_ge_l (a b : Q) : a <= py_max a b.
Proof. rewrite py_max_spec. apply Q.le_max_l. Qed.

Lemma py_max_le (a b c : Q) : a <= c -> b <= c -> py_max a b <= c.
Proof. intros. rewrite py_max_spec. now apply Q.max_lub. Qed.

Lemma py_round_cents (x : Q) (cents : Z) :
  x == inject_Z cents / 100 -> py_round x 2 == x.
Proof.
  intro E. rewrite (py_round_comp _ _ 2 E). rewrite E. apply (py_round_exact cents 2).
Qed.

(** For a last price of at least one cent the estimate is a proper
    quote: the bid is at least 0.01 and not above the ask; when the
    last price is a whole number of cents it lies between the two. *)
Theorem estimate_is_proper_quote (last_price : Q) (volume : Z) (ty : OptionType) :
  1 # 100 <= last_price ->
  let quote := estimate_bid_ask_spread last_price volume ty in
  1 # 100 <= fst quote /\
  fst quote <= snd quote /\
  (forall cents : Z,
      last_price == inject_Z cents / 100 ->
      fst quote <= last_price <= snd quote).
Proof.
  intros H. cbv zeta.
  destruct (estimate_edges last_price volume ty) as [pct [[P1 P2] E]]; [lra|].
  rewrite E. cbn [fst snd].
  assert (C : py_round (1 # 100) 2 == 1 # 100) by reflexivity.
  destruct (half_spread_bounds last_price pct) as [Hh _]; [lra | split; lra |].
  assert (Lo : last_price - last_price * pct / 2 <= last_price) by lra.
  assert (Hi : last_price <= last_price + last_price * pct / 2) by lra.
  assert (A : 1 # 100 <= py_round (last_price + last_price * pct / 2) 2).
  { rewrite <- C. apply py_round_mono. lra. }
  split; [apply py_max_ge_l|]. split.
  - apply py_max_le; [exact A|]. apply py_round_mono. lra.
  - intros cents Hc. pose proof (py_round_cents _ _ Hc) as R. split.
    + apply py_max_le; [exact H|].
      apply Qle_trans with (py_round last_price 2);
        [now apply py_round_mono | rewrite R; apply Qle_refl].
    + apply Qle_trans with (py_round last_price 2);
        [rewrite R; apply Qle_refl | now apply py_round_mono].
Qed.

Lemma estimate_is_proper_quote_witness :
  1 # 100 <= 123 # 100 /\
  let quote := estimate_bid_ask_spread (123 # 100) 500 Put in
  1 # 100 <= fst quote /\ fst quote <= snd quote /\
  fst quote <= 123 # 100 <= snd quote.
Proof.
  assert (H : 1 # 100 <= 123 # 100) by discriminate.
  split; [exact H|]. cbv zeta.
  destruct (estimate_is_proper_quote (123 # 100) 500 Put H) as (A & B & C).
  split; [exact A|]. split; [exact B|].
  apply (C 123%Z). reflexivity.
Defined.

(** Below 0.4 cent the estimate is crossed: both edges round to zero,
    the bid is lifted to 0.01 and the ask stays 0. *)
Theorem estimate_crossed_below_tick (last_price : Q) (volume : Z) (ty : OptionType) :
  0 < last_price -> last_price < 4 # 1000 ->
  let quote := estimate_bid_ask_spread last_price volume ty in
  fst quote == 1 # 100 /\ snd quote == 0 /\ snd quote < fst quote.
Proof.
  intros H0 H1. cbv zeta.
  destruct (estimate_edges last_price volume ty H0) as [pct [[P1 P2] E]].
  rewrite E. cbn [fst snd].
  destruct (half_spread_bounds last_price pct) as [Hh Hk]; [lra | split; lra |].
  assert (Z0 : py_round 0 2 == 0) by reflexivity.
  assert (Z1 : py_round (49 # 10000) 2 == 0) by reflexivity.
  assert (Ra : py_round (last_price + last_price * pct / 2) 2 == 0).
  { apply Qle_antisym.
    - rewrite <- Z1. apply py_round_mono. lra.
    - rewrite <- Z0. apply py_round_mono. lra. }
  assert (Rb : py_round (last_price - last_price * pct / 2) 2 == 0).
  { apply Qle_antisym.
    - rewrite <- Z1. apply py_round_mono. lra.
    - rewrite <- Z0. apply py_round_mono. lra. }
  assert (B : py_max (1 # 100) (py_round (last_price - last_price * pct / 2) 2)
              == 1 # 100).
  { rewrite py_max_spec. apply Q.max_l. rewrite Rb. discriminate. }
  rewrite B, Ra. repeat split; reflexivity.
Qed.

Lemma estimate_crossed_below_tick_witness :
  0 < 1 # 1000 /\ 1 # 1000 < 4 # 1000 /\
  let quote := estimate_bid_ask_spread (1 # 1000) 50 Call in
  fst quote == 1 # 100 /\ snd quote == 0 /\ snd quote < fst quote.
Proof.
  assert (A : 0 < 1 # 1000) by reflexivity.
  assert (B : 1 # 1000 < 4 # 1000) by reflexivity.
  split; [exact A|]. split; [exact B|].
  exact (estimate_crossed_below_tick (1 # 1000) 50 Call A B).
Defined.

End QuoteProofs.

(** ** The texts of the spread messages *)

Module SpreadText.

Import String DataFormatter.
Open Scope string_scope.

(** The text [validate_spread_parameters] returns beside its flag. *)
Definition validator_text (m : SpreadMessage) : string :=
  match m with
  | NoMessage => EmptyString
  | LegsDiffer => "Both legs must be the same type (both Calls or both Puts)"
  | CallStrikeOrder =>
      "For a Call Credit Spread, sell strike must be lower than buy strike"
  | PutStrikeOrder =>
      "For a Put Credit Spread, sell strike must be higher than buy strike"
  end.

(** The text the calculator hands to [st.error]; it shows none for a
    spread it analyses. *)
Definition calculator_text (m : SpreadMessage) : string :=
  match m with
  | NoMessage => EmptyString
  | LegsDiffer =>
      "Both legs must be the same type (both Calls or both Puts) for a credit spread"
  | CallStrikeOrder =>
      "For a Call Credit Spread, sell strike must be lower than buy strike"
  | PutStrikeOrder =>
      "For a Put Credit Spread, sell strike must be higher than buy strike"
  end.

(** What the calculator adds to the validator's text for legs of
    different types. *)
Definition legs_suffix (m : SpreadMessage) : string :=
  match m with
  | LegsDiffer => " for a credit spread"
  | _ => EmptyString
  end.

End SpreadText.

(** ** More on the credit spread calculator *)

Module SpreadShape.

Import PyNum DataFormatter App SpreadProofs.
Open Scope Q_scope.

(** The calculator's own checks and the formatter's
    [validate_spread_parameters] decide alike: what one analyses the
    other accepts, and what one rejects the other rejects for the same
    reason.  The two messages on the order of the strikes have the same
    text; for legs of different types the calculator shows the
    validator's text followed by " for a credit spread". *)
Theorem validator_agrees_with_calculator
    (sell_type buy_type : OptionType)
    (sell_strike sell_premium buy_strike buy_premium : Q)
    (contracts : Z) (current_stock_price : option Q) :
  match calculate_spread sell_type sell_strike sell_premium
                         buy_type buy_strike buy_premium
                         contracts current_stock_price with
  | Analysed _ =>
      validate_spread_parameters sell_strike buy_strike sell_type buy_type
      = (true, NoMessage)
  | Rejected m =>
      validate_spread_parameters sell_strike buy_strike sell_type buy_type
      = (false, m) /\
      m <> NoMessage /\
      SpreadText.calculator_text m
      = String.append (SpreadText.validator_text m) (SpreadText.legs_suffix m)
  end.
Proof.
  unfold calculate_spread, validate_spread_parameters, Qltb.
  destruct sell_type, buy_type; cbn [OptionType_eqb negb].
  - destruct (Qle_bool buy_strike sell_strike); [| reflexivity].
    split; [reflexivity | split; [discriminate | reflexivity]].
  - split; [reflexivity | split; [discriminate | reflexivity]].
  - split; [reflexivity | split; [discriminate | reflexivity]].
  - destruct (Qle_bool sell_strike buy_strike); [| reflexivity].
    split; [reflexivity | split; [discriminate | reflexivity]].
Qed.

(** The distance between the strikes of a valid spread. *)
Definition spread_width (ty : OptionType) (sell_strike buy_strike : Q) : Q :=
  match ty with
  | Call => buy_strike - sell_strike
  | Put => sell_strike - buy_strike
  end.


Definition strikes_ordered (ty : OptionType) (sell_strike buy_strike : Q) : Prop :=
  match ty with
  | Call => sell_strike < buy_strike
  | Put => buy_strike < sell_strike
  end.







(** *** The sampled prices of the diagram *)

Lemma linspace_length (start stop : Q) (num : nat) :
  length (linspace start stop num) = num.
Proof. unfold linspace. now rewrite length_map, length_seq. Qed.

Lemma linspace_within (start stop : Q) (num : nat) (x : Q) :
  (2 <= num)%nat -> start <= stop ->
  In x (linspace start stop num) -> start <= x <= stop.
Proof.
  intros Hn Hle Hx. unfold linspace in Hx.
  apply in_map_iff in Hx. destruct Hx as (i & <- & Hi).
  apply in_seq in Hi.
  assert (N : 0 < inject_Z (Z.of_nat (num - 1))).
  { rewrite <- (Zlt_Qlt 0). lia. }
  assert (I : 0 <= inject_Z (Z.of_nat i) <= inject_Z (Z.of_nat (num - 1))).
  { rewrite <- (Zle_Qle 0), <- Zle_Qle. lia. }
  set (n := inject_Z (Z.of_nat (num - 1))) in *.
  set (k := inject_Z (Z.of_nat i)) in *.
  assert (E : start + k * ((stop - start) / n) == start + (k / n) * (stop - start))
    by (field; lra).
  rewrite E.
  assert (F : 0 <= k / n <= 1).
  { split.
    - apply Qle_shift_div_l; lra.
    - apply Qle_shift_div_r; lra. }
  split; nra.
Qed.

Lemma linspace_nth (start stop : Q) (num i : nat) :
  (i < num)%nat ->
  nth i (linspace start stop num) 0
  = start + inject_Z (Z.of_nat i) * ((stop - start) / inject_Z (Z.of_nat (num - 1))).
Proof.
  intro Hi. unfold linspace.
  set (f := fun i : nat =>
              start + inject_Z (Z.of_nat i)
                      * ((stop - start) / inject_Z (Z.of_nat (num - 1)))).
  rewrite (nth_indep _ 0 (f O)) by (rewrite length_map, length_seq; exact Hi).
  rewrite (map_nth f), seq_nth by exact Hi. reflexivity.
Qed.

Lemma linspace_ends (start stop : Q) (num : nat) :
  (2 <= num)%nat ->
  nth 0 (linspace start stop num) 0 == start /\
  nth (num - 1) (linspace start stop num) 0 == stop.
Proof.
  intro Hn.
  assert (N : 0 < inject_Z (Z.of_nat (num - 1))).
  { rewrite <- (Zlt_Qlt 0). lia. }
  rewrite !linspace_nth by lia. split.
  - cbn [Z.of_nat]. field. lra.
  - field. lra.
Qed.

(** With a stock price loaded, the diagram of a valid spread between
    strikes that are not negative has 100 samples, from 0.9 times the
    lower strike to 1.1 times the upper one; every sample lies in that
    range and so do both strikes.  Without a stock price nothing is
    drawn. *)
Theorem diagram_covers_strikes
    (ty : OptionType) (sell_strike sell_premium buy_strike buy_premium : Q)
    (contracts : Z) (current_stock_price : option Q) :
  strikes_ordered ty sell_strike buy_strike ->
  0 <= sell_strike -> 0 <= buy_strike ->
  exists a,
    calculate_spread ty sell_strike sell_premium ty buy_strike buy_premium
                     contracts current_stock_price = Analysed a /\
    length (pnl a) = length (price_range a) /\
    match current_stock_price with
    | None => price_range a = []
    | Some p =>
        if Qeq_bool p 0 then price_range a = []
        else
          let lo := Qmin sell_strike buy_strike * (9 # 10) in
          let hi := Qmax sell_strike buy_strike * (11 # 10) in
          length (price_range a) = 100%nat /\
          nth 0 (price_range a) 0 == lo /\
          nth 99 (price_range a) 0 == hi /\
          (forall x, In x (price_range a) -> lo <= x <= hi) /\
          lo <= sell_strike <= hi /\ lo <= buy_strike <= hi
    end.
Proof.
  intros Hk Hs Hb.
  assert (Emin : py_min sell_strike buy_strike == Qmin sell_strike buy_strike).
  { unfold py_min. destruct (Qltb buy_strike sell_strike) eqn:E.
    - apply Qltb_lt in E. symmetry. apply Q.min_r. lra.
    - apply Qltb_ge in E. symmetry. apply Q.min_l. exact E. }
  pose proof (py_max_spec sell_strike buy_strike) as Emax.
  pose proof (Q.le_min_l sell_strike buy_strike) as M1.
  pose proof (Q.le_min_r sell_strike buy_strike) as M2.
  pose proof (Q.le_max_l sell_strike buy_strike) as M3.
  pose proof (Q.le_max_r sell_strike buy_strike) as M4.
  assert (M0 : 0 <= Qmin sell_strike buy_strike) by (apply Q.min_glb; assumption).
  unfold calculate_spread.
  destruct ty; cbn [OptionType_eqb strikes_ordered] in *;
    apply Qltb_lt in Hk; rewrite Hk; eexists; (split; [reflexivity|]);
    cbn [pnl price_range]; (split; [now rewrite length_map|]);
    destruct current_stock_price as [p |]; try reflexivity;
    destruct (Qeq_bool p 0); try reflexivity; cbv zeta;
    rewrite linspace_length; (split; [reflexivity|]);
    destruct (linspace_ends (py_min sell_strike buy_strike * (9 # 10))
                (py_max sell_strike buy_strike * (11 # 10)) 100) as [E0 E99];
    try lia; cbn [Nat.sub] in E99;
    (split; [rewrite E0, Emin; reflexivity|]);
    (split; [rewrite E99, Emax; reflexivity|]);
    (split; [| split; lra]);
    intros x Hx; apply linspace_within in Hx; try lia;
    rewrite ?Emin, ?Emax in *; lra.
Qed.

Lemma diagram_covers_strikes_witness :
  strikes_ordered Call 100 105 /\ 0 <= 100 /\ 0 <= 105 /\
  exists a,
    calculate_spread Call 100 2 Call 105 (1 # 2) 1 (Some 101) = Analysed a /\
    length (price_range a) = 100%nat /\
    nth 0 (price_range a) 0 == 90 /\
    nth 99 (price_range a) 0 == 1155 # 10.
Proof.
  assert (K : strikes_ordered Call 100 105) by reflexivity.
  assert (A : 0 <= 100) by discriminate.
  assert (B : 0 <= 105) by discriminate.
  split; [exact K|]. split; [exact A|]. split; [exact B|].
  destruct (diagram_covers_strikes Call 100 2 105 (1 # 2) 1 (Some 101) K A B)
    as (a & Ha & _ & H).
  change (Qeq_bool 101 0) with false in H. cbv iota zeta in H.
  destruct H as (L & E0 & E99 & _).
  exists a. split; [exact Ha|]. split; [exact L|].
  split; [rewrite E0 | rewrite E99]; reflexivity.
Defined.

End SpreadShape.

(** ** More on the strike window *)

Module WindowFacts.

Import PyNum PyList DataFormatter App WindowProofs.
Open Scope Q_scope.

(** The nearest strike and its position, for any non-empty list. *)
Lemma nearest_found (strikes : list Q) (p : Q) :
  strikes <> [] ->
  exists i s,
    py_min_by (fun x => Qabs (x - p)) strikes = Ok s /\
    py_index s strikes = Ok i /\
    nth_error strikes i = Some s /\
    (forall s', In s' strikes -> dist p s <= dist p s').
Proof.
  intro Hne.
  destruct (py_min_by_first (fun x => Qabs (x - p)) strikes Hne)
    as (l1 & b & l2 & E & Hmin & H1 & H2).
  exists (length l1), b. split; [exact Hmin|].
  assert (N : forall s, In s l1 -> ~ s == b).
  { intros s Hs Q. specialize (H1 s Hs). cbv beta in H1.
    pose proof (dist_comp p s b Q) as D. unfold dist in D. lra. }
  subst strikes. split; [now apply py_index_first|]. split.
  - rewrite nth_error_app2 by lia. now rewrite Nat.sub_diag.
  - intros s' Hs. unfold dist. apply in_app_or in Hs.
    destruct Hs as [Hs | [<- | Hs]].
    + apply Qlt_le_weak. now apply (H1 s').
    + apply Qle_refl.
    + now apply (H2 s').
Qed.

(** The slice around a position of the list: it holds the element at
    that position, is a run of consecutive elements of the list, is at
    most 2 n + 1 long, and is the whole list once n reaches its length. *)
Lemma slice_around {A : Type} (l : list A) (i : nat) (x : A) (n : Z) :
  nth_error l i = Some x -> (0 <= n)%Z ->
  let w := py_slice l (Z.max 0 (Z.of_nat i - n))
                      (Z.min (Z.of_nat (length l)) (Z.of_nat i + n + 1)) in
  In x w /\
  (exists pre post, l = pre ++ w ++ post) /\
  (Z.of_nat (length w) <= 2 * n + 1)%Z /\
  ((Z.of_nat (length l) <= n)%Z -> w = l).
Proof.
  intros Hx Hn. cbv zeta.
  assert (Hi : (i < length l)%nat) by (apply nth_error_Some; congruence).
  unfold py_slice, slice_bound.
  destruct (Z.ltb_spec (Z.max 0 (Z.of_nat i - n)) 0); [lia|].
  destruct (Z.ltb_spec (Z.min (Z.of_nat (length l)) (Z.of_nat i + n + 1)) 0); [lia|].
  set (a := Z.to_nat (Z.min (Z.max 0 (Z.of_nat i - n)) (Z.of_nat (length l)))).
  set (k := Z.to_nat (Z.min (Z.min (Z.of_nat (length l)) (Z.of_nat i + n + 1))
                            (Z.of_nat (length l))
                      - Z.min (Z.max 0 (Z.of_nat i - n)) (Z.of_nat (length l)))).
  assert (Ha : (a <= i)%nat) by (unfold a; lia).
  assert (Hk : (i - a < k)%nat) by (unfold a, k; lia).
  split; [| split; [| split]].
  - apply (nth_error_In _ (i - a)).
    rewrite nth_error_firstn.
    destruct (Nat.ltb_spec (i - a) k); [| lia].
    rewrite nth_error_skipn. replace (a + (i - a))%nat with i by lia. exact Hx.
  - exists (firstn a l), (skipn k (skipn a l)).
    now rewrite firstn_skipn, firstn_skipn.
  - pose proof (firstn_le_length k (skipn a l)). unfold k in *. lia.
  - intro Hl.
    assert (a = O) by (unfold a; lia).
    assert (k = length l) by (unfold k; lia).
    subst a. rewrite H1, H2. cbn [skipn]. apply firstn_all.
Qed.

(** For any non-empty list of strikes and a half width of zero or more,
    [get_strike_range_around_atm] returns a run of consecutive strikes of
    the list that holds a strike nearest to the stock price and is at
    most 2 * half width + 1 long; it is the whole list once the half
    width reaches the number of strikes. *)
Theorem window_holds_nearest_strike (strikes : list Q) (p : Q) (n : Z) :
  strikes <> [] -> (0 <= n)%Z ->
  exists s w,
    get_strike_range_around_atm strikes p n = Ok w /\
    In s w /\
    (forall s', In s' strikes -> dist p s <= dist p s') /\
    (exists pre post, strikes = pre ++ w ++ post) /\
    (Z.of_nat (length w) <= 2 * n + 1)%Z /\
    ((Z.of_nat (length strikes) <= n)%Z -> w = strikes).
Proof.
  intros Hne Hn.
  destruct (nearest_found strikes p Hne) as (i & s & Hmin & Hidx & Hnth & Hbest).
  destruct (slice_around strikes i s n Hnth Hn) as (W1 & W2 & W3 & W4).
  exists s. eexists. split.
  - unfold get_strike_range_around_atm.
    destruct strikes; [congruence|].
    rewrite Hmin. cbn [bind]. rewrite Hidx. cbn [bind]. reflexivity.
  - auto.
Qed.

Lemma window_holds_nearest_strike_witness :
  [90; 95; 100; 105; 110] <> [] /\ (0 <= 1)%Z /\
  exists s w,
    get_strike_range_around_atm [90; 95; 100; 105; 110] 101 1 = Ok w /\
    In s w /\
    (forall s', In s' [90; 95; 100; 105; 110] -> dist 101 s <= dist 101 s') /\
    (Z.of_nat (length w) <= 2 * 1 + 1)%Z.
Proof.
  assert (N : [90; 95; 100; 105; 110] <> []) by discriminate.
  assert (H : (0 <= 1)%Z) by discriminate.
  split; [exact N|]. split; [exact H|].
  destruct (window_holds_nearest_strike [90; 95; 100; 105; 110] 101 1 N H)
    as (s & w & A & B & C & _ & D & _).
  exists s, w. auto.
Defined.

(** The dashboard builds the table only for a chain that is not empty
    and a stock price that is not zero.  Under that guard, and for a half
    width of zero or more, the block raises nothing: it returns a run of
    consecutive strikes of the list among which is one nearest to the
    stock price, and what it returns is the whole list or at most
    2 * half width + 1 strikes. *)
Theorem display_strikes_returns_nearest (strikes : list Q) (p : Q) (n : Z) :
  strikes <> [] -> ~ p == 0 -> (0 <= n)%Z ->
  exists s w,
    display_strikes strikes p n = Ok w /\
    In s w /\
    (forall s', In s' strikes -> dist p s <= dist p s') /\
    (exists pre post, strikes = pre ++ w ++ post) /\
    (w = strikes \/ (Z.of_nat (length w) <= 2 * n + 1)%Z).
Proof.
  intros Hne Hp Hn.
  destruct (nearest_found strikes p Hne) as (i & s & Hmin & Hidx & Hnth & Hbest).
  destruct (slice_around strikes i s n Hnth Hn) as (W1 & W2 & W3 & _).
  unfold display_strikes, py_div.
  rewrite Hmin. cbn [bind]. rewrite Hidx. cbn [bind].
  destruct (Qeq_bool p 0) eqn:E; [apply Qeq_bool_iff in E; contradiction|].
  cbn [bind]. exists s.
  destruct (Qltb 20 (Qabs (s - p) / p * 100)).
  - exists strikes. split; [reflexivity|].
    split; [eapply nth_error_In; eassumption|]. split; [exact Hbest|].
    split; [| now left]. exists [], []. now rewrite app_nil_r.
  - eexists. split; [reflexivity|]. auto.
Qed.

Lemma display_strikes_returns_nearest_witness :
  [95; 100] <> [] /\ ~ 101 == 0 /\ (0 <= 5)%Z /\
  exists s w,
    display_strikes [95; 100] 101 5 = Ok w /\ In s w /\
    (forall s', In s' [95; 100] -> dist 101 s <= dist 101 s').
Proof.
  assert (N : [95; 100] <> []) by discriminate.
  assert (P : ~ 101 == 0) by discriminate.
  assert (H : (0 <= 5)%Z) by discriminate.
  split; [exact N|]. split; [exact P|]. split; [exact H|].
  destruct (display_strikes_returns_nearest [95; 100] 101 5 N P H)
    as (s & w & A & B & C & _).
  exists s, w. auto.
Defined.

End WindowFacts.

(** ** data_formatter.py: the chain prepared for display *)

Module ChainDisplay.

Import PyNum PyList DataFormatter.
Open Scope Q_scope.

(** [Series.unique()]: the distinct values, in order of first
    appearance. *)
Fixpoint pd_unique (l : list Q) : list Q :=
  match l with
  | [] => []
  | x :: t => x :: filter (fun y => negb (Qeq_bool y x)) (pd_unique t)
  end.

(** [sorted(l)]: ascending and stable, by insertion from the left. *)
Fixpoint insert_sorted (x : Q) (l : list Q) : list Q :=
  match l with
  | [] => [x]
  | y :: t => if Qltb x y then x :: y :: t else y :: insert_sorted x t
  end.

Definition py_sorted (l : list Q) : list Q :=
  fold_left (fun acc x => insert_sorted x acc) l [].

(** [Series.isin(values)] for one value. *)
Definition isin (x : Q) (values : list Q) : bool := existsb (Qeq_bool x) values.

(** A row of the filtered frame with the columns the loop adds. *)
Record DisplayRow : Type := mkDisplayRow {
  base : ChainRow;
  col_moneyness_pct : Q;
  col_is_itm : bool;
  col_is_atm : bool;
  col_intrinsic_value : Q
}.

(** [format_option_chain_for_display(option_chain, stock_price,
    strikes_around_atm=10)]. *)
Definition format_option_chain_for_display
    (option_chain : list ChainRow) (stock_price : Q) (strikes_around_atm : Z)
    : result (list DisplayRow) :=
  match option_chain with
  | [] => Ok []
  | _ =>
      let strikes := py_sorted (pd_unique (map row_strike option_chain)) in
      display_strikes <-
        get_strike_range_around_atm strikes stock_price strikes_around_atm ;;
      let filtered_chain :=
        filter (fun row => isin (row_strike row) display_strikes) option_chain in
      Ok (map (fun row =>
                 let moneyness :=
                   calculate_moneyness stock_price (row_strike row) (row_type row) in
                 mkDisplayRow row (moneyness_pct moneyness) (is_itm moneyness)
                              (is_atm moneyness) (intrinsic_value moneyness))
              filtered_chain)
  end.

End ChainDisplay.

Module ChainDisplayProofs.

Import PyNum PyList DataFormatter ChainDisplay WindowProofs WindowFacts.
Open Scope Q_scope.








(** An empty chain gives an empty frame. *)
Lemma display_of_empty_chain (p : Q) (n : Z) :
  format_option_chain_for_display [] p n = Ok [].
Proof. reflexivity. Qed.

End ChainDisplayProofs.

(** ** app.py: the rows of the option chain table *)

Module ChainTable.

Import PyNum DataFormatter.
Open Scope Q_scope.

(** The percentage and the three hidden columns of one table row; the
    table is built only with a stock price that is not zero. *)
Record RowMeta : Type := mkRowMeta {
  shown_pct : Q;
  meta_is_atm : bool;
  meta_is_call_itm : bool;
  meta_is_put_itm : bool
}.

Definition row_meta (stock_price atm_strike strike : Q) : RowMeta :=
  let moneyness := ((stock_price - strike) / stock_price) * 100 in
  mkRowMeta moneyness
            (Qltb (Qabs (strike - atm_strike)) (1 # 100))
            (Qltb strike stock_price)
            (Qltb stock_price strike).

(** What [style_option_chain] colours in a row. *)
Inductive Highlight : Type :=
| StrikeColumn    (* the ATM row *)
| CallColumns     (* calls in the money *)
| PutColumns      (* puts in the money *)
| NoColumns.

Definition style_option_chain (row : RowMeta) : Highlight :=
  if meta_is_atm row then StrikeColumn
  else if meta_is_call_itm row then CallColumns
  else if meta_is_put_itm row then PutColumns
  else NoColumns.

End ChainTable.

Module ChainTableProofs.

Import PyNum DataFormatter ChainTable MoneynessProofs.
Open Scope Q_scope.

(** For a positive stock price and strike the table and the formatter's
    classifier agree as far as the table goes: the table shows the
    classifier's percentage; whatever the classifier calls in the money
    the table flags in the money on the same side, and what it calls out
    of the money the table flags in the money on the other side (the
    table has no ATM band).  The table never flags both sides, and a row
    is left without colour only when its strike equals the stock price
    and is not within 0.01 of the ATM strike. *)
Theorem table_agrees_with_classifier (S atm K : Q) :
  0 < S -> 0 < K ->
  let row := row_meta S atm K in
  let call := calculate_moneyness S K Call in
  let put := calculate_moneyness S K Put in
  shown_pct row == moneyness_pct call /\
  shown_pct row == moneyness_pct put /\
  (is_itm call = true -> meta_is_call_itm row = true) /\
  (is_itm put = true -> meta_is_put_itm row = true) /\
  (is_otm call = true -> meta_is_put_itm row = true) /\
  (is_otm put = true -> meta_is_call_itm row = true) /\
  (meta_is_call_itm row = true -> meta_is_put_itm row = false) /\
  (style_option_chain row = NoColumns <->
     K == S /\ 1 # 100 <= Qabs (K - atm)).
Proof.
  intros HS HK. cbv zeta. unfold calculate_moneyness, row_meta.
  pose proof HS as HS'. pose proof HK as HK'.
  apply Qle_bool_false in HS', HK'. rewrite HS', HK'.
  cbn [orb shown_pct moneyness_pct is_itm is_otm meta_is_call_itm
       meta_is_put_itm meta_is_atm].
  unfold style_option_chain. cbn [meta_is_atm meta_is_call_itm meta_is_put_itm].
  rewrite !Qltb_lt.
  assert (U : K < K * (1 + (5 # 10) / 100)) by (rewrite band_upper; unfold tol; lra).
  assert (L : K * (1 - (5 # 10) / 100) < K) by (rewrite band_lower; unfold tol; lra).
  split; [reflexivity|]. split; [reflexivity|].
  split; [lra|]. split; [lra|]. split; [lra|]. split; [lra|].
  split.
  - intro H. apply Qltb_ge. lra.
  - destruct (Qltb (Qabs (K - atm)) (1 # 100)) eqn:A;
    destruct (Qltb K S) eqn:B; destruct (Qltb S K) eqn:C;
    rewrite ?Qltb_lt, ?Qltb_ge in *;
    (split; [intro H; try discriminate H; split; lra
            | intros [E F]; try reflexivity; exfalso; lra]).
Qed.

Lemma table_agrees_with_classifier_witness :
  0 < 110 /\ 0 < 100 /\
  meta_is_call_itm (row_meta 110 110 100) = true /\
  meta_is_put_itm (row_meta 110 110 100) = false /\
  shown_pct (row_meta 110 110 100) == moneyness_pct (calculate_moneyness 110 100 Call).
Proof.
  assert (A : 0 < 110) by reflexivity.
  assert (B : 0 < 100) by reflexivity.
  split; [exact A|]. split; [exact B|].
  destruct (table_agrees_with_classifier 110 110 100 A B)
    as (P & _ & I & _ & _ & _ & X & _).
  split; [apply I; reflexivity|].
  split; [apply X, I; reflexivity | exact P].
Defined.

End ChainTableProofs.

(** ** Sentiment: dashboard against formatter *)

Module SentimentAgreement.

Import PyNum DataFormatter App RatioProofs RoundingFacts.
Open Scope Q_scope.

Lemma py_round_nonpositive (x : Q) (n : nat) : x <= 0 -> py_round x n <= 0.
Proof.
  intro H. rewrite <- (py_round_0 n). now apply py_round_mono.
Qed.

Lemma sentiment_block_not_available (v oi : Q) :
  sentiment_block v oi = NotAvailable <-> v <= 0 /\ oi <= 0.
Proof.
  unfold sentiment_block.
  destruct (Qltb 0 v) eqn:A; destruct (Qltb 0 oi) eqn:B; cbn [orb];
    rewrite ?Qltb_lt, ?Qltb_ge in *.
  4: tauto.
  all: split; [| intros [? ?]; lra].
  all: match goal with
       | |- context [if ?c then Bearish else _] =>
           destruct c; [discriminate|]
       end;
       match goal with
       | |- context [if ?c then Bullish else _] =>
           destruct c; discriminate
       end.
Qed.

(** Whenever the dashboard shows "N/A" for the sentiment of a chain, the
    formatter's pipeline (aggregate_option_metrics, then
    determine_market_sentiment on its two rounded ratios) reports
    "No Data" for the same chain. *)
Theorem dashboard_na_is_formatter_no_data (chain : list ChainRow) :
  sentiment_metric (summary_statistics chain) = NotAvailable ->
  let m := aggregate_option_metrics chain in
  determine_market_sentiment (pc_ratio_volume m) (pc_ratio_oi m) = NoData.
Proof.
  intro H. cbv zeta.
  destruct (summary_metrics chain) as (_ & _ & S). rewrite S in H. clear S.
  apply sentiment_block_not_available in H. destruct H as [Hv Ho].
  pose proof (aggregate_ratio_volume chain) as Rv.
  pose proof (aggregate_ratio_oi chain) as Ro.
  cbv zeta in Rv, Ro.
  unfold pc_ratio_block in Hv, Ho.
  assert (Av : pc_ratio_volume (aggregate_option_metrics chain) <= 0).
  { rewrite Rv. apply py_round_nonpositive.
    destruct (0 <? column_total row_volume Call chain)%Z; [exact Hv | apply Qle_refl]. }
  assert (Ao : pc_ratio_oi (aggregate_option_metrics chain) <= 0).
  { rewrite Ro. apply py_round_nonpositive.
    destruct (0 <? column_total row_open_interest Call chain)%Z;
      [exact Ho | apply Qle_refl]. }
  unfold determine_market_sentiment.
  apply Qltb_ge in Av, Ao. now rewrite Av, Ao.
Qed.

Lemma dashboard_na_is_formatter_no_data_witness :
  let chain := [mkRow Put 100 5 7 None; mkRow Put 105 2 1 None] in
  sentiment_metric (summary_statistics chain) = NotAvailable /\
  determine_market_sentiment
    (pc_ratio_volume (aggregate_option_metrics chain))
    (pc_ratio_oi (aggregate_option_metrics chain)) = NoData.
Proof.
  cbv zeta.
  assert (H : sentiment_metric
                (summary_statistics [mkRow Put 100 5 7 None; mkRow Put 105 2 1 None])
              = NotAvailable) by reflexivity.
  split; [exact H|].
  exact (dashboard_na_is_formatter_no_data _ H).
Defined.

End SentimentAgreement.

(** ** app.py: the weekend hint of the date picker *)

Module Calendar.

Open Scope Z_scope.

(** A date as its proleptic Gregorian ordinal ([date.toordinal()]);
    [date.weekday()] is Monday = 0 .. Sunday = 6. *)
Definition weekday (ordinal : Z) : Z := (ordinal + 6) mod 7.

(** The date validation helper: for a Saturday or Sunday, the date
    proposed as "last Friday". *)
Definition weekend_hint (as_of_date : Z) : option Z :=
  if 5 <=? weekday as_of_date then
    let days_to_friday := (weekday as_of_date - 4) mod 7 in
    Some (as_of_date - days_to_friday)
  else None.

(** The hint is given exactly on Saturdays and Sundays; the date it
    proposes is a Friday, one day before a Saturday and two days before
    a Sunday. *)
Theorem weekend_hint_is_last_friday (as_of_date : Z) :
  match weekend_hint as_of_date with
  | Some friday =>
      weekday friday = 4 /\
      (weekday as_of_date = 5 /\ friday = as_of_date - 1 \/
       weekday as_of_date = 6 /\ friday = as_of_date - 2)
  | None => 0 <= weekday as_of_date <= 4
  end.
Proof.
  unfold weekend_hint.
  pose proof (Z.mod_pos_bound (as_of_date + 6) 7 eq_refl) as B.
  fold (weekday as_of_date) in B.
  destruct (Z.leb_spec 5 (weekday as_of_date)) as [H | H]; [| lia].
  assert (C : weekday as_of_date = 5 \/ weekday as_of_date = 6) by lia.
  unfold weekday in *.
  destruct C as [C | C]; rewrite C; cbn [Z.sub Z.modulo]; split.
  - change ((5 - 4) mod 7) with 1.
    replace (as_of_date - 1 + 6) with ((as_of_date + 6) - 1) by lia.
    rewrite Zminus_mod, C. reflexivity.
  - left. split; [reflexivity|]. reflexivity.
  - change ((6 - 4) mod 7) with 2.
    replace (as_of_date - 2 + 6) with ((as_of_date + 6) - 2) by lia.
    rewrite Zminus_mod, C. reflexivity.
  - right. split; reflexivity.
Qed.

End Calendar.

(** ** More on the Black-Scholes evaluator *)

Module BlackScholesFacts.

Import Reals Factorial ROrderedType Lra.
Import Normal NumPy PolygonAPI BlackScholesProofs.
Open Scope R_scope.

Lemma Int_part_bounds (y : R) : IZR (Int_part y) <= y < IZR (Int_part y) + 1.
Proof. destruct (base_Int_part y). lra. Qed.

Lemma Int_part_shift (y : R) (n : Z) : Int_part (y - IZR n) = (Int_part y - n)%Z.
Proof.
  symmetry. apply Int_part_spec. rewrite minus_IZR.
  pose proof (Int_part_bounds y). lra.
Qed.

(** Shifting by an even integer shifts the rounded value. *)
Lemma Rround_half_even_shift (y : R) (n : Z) :
  Z.even n = true ->
  Rround_half_even (y - IZR n) = (Rround_half_even y - n)%Z.
Proof.
  intro E. unfold Rround_half_even. rewrite Int_part_shift.
  replace (y - IZR n - IZR (Int_part y - n)) with (y - IZR (Int_part y))
    by (rewrite minus_IZR; ring).
  rewrite Z.even_sub, E.
  destruct (Rcompare (y - IZR (Int_part y)) (1 / 2)); try lia.
  destruct (Z.even (Int_part y)); cbn [Bool.eqb]; lia.
Qed.

Lemma round_to_minus_one (x : R) : round_to (x - 1) 4 = round_to x 4 - 1.
Proof.
  unfold round_to.
  replace ((x - 1) * 10 ^ 4) with (x * 10 ^ 4 - IZR 10000) by (simpl; lra).
  rewrite Rround_half_even_shift by reflexivity.
  rewrite minus_IZR. simpl. lra.
Qed.

Lemma Rround_half_even_nonneg (y : R) : 0 <= y -> (0 <= Rround_half_even y)%Z.
Proof.
  intro H. pose proof (Int_part_bounds y) as [L U].
  assert (F : (0 <= Int_part y)%Z).
  { assert (G : (-1 < Int_part y)%Z) by (apply lt_IZR; simpl; lra). lia. }
  unfold Rround_half_even.
  destruct (Rcompare (y - IZR (Int_part y)) (1 / 2)); try lia.
  destruct (Z.even (Int_part y)); lia.
Qed.

Lemma round_to_nonneg (x : R) (n : nat) : 0 <= x -> 0 <= round_to x n.
Proof.
  intro H. unfold round_to.
  assert (P : 0 < 10 ^ n) by (apply pow_lt; lra).
  apply Rmult_le_pos.
  - apply IZR_le. apply Rround_half_even_nonneg. apply Rmult_le_pos; lra.
  - apply Rlt_le, Rinv_0_lt_compat, P.
Qed.

Lemma norm_pdf_pos (x : R) : 0 < norm_pdf x.
Proof.
  unfold norm_pdf. apply Rdiv_lt_0_compat; [apply exp_pos|].
  pose proof sqrt_2PI_gt_1. lra.
Qed.

(** For valid inputs the deltas returned for the call and the put of one
    contract differ by exactly 1, also after their rounding to four
    decimals. *)
Theorem rounded_deltas_differ_by_one (S K T r sigma : R) :
  0 < S -> 0 < K -> 0 < T -> 0 < sigma ->
  exists gc gp dc dp,
    calculate_greeks S K T r sigma Call = Ok gc /\
    calculate_greeks S K T r sigma Put = Ok gp /\
    delta gc = Fin dc /\ delta gp = Fin dp /\
    dc - dp = 1.
Proof.
  intros HS HK HT Hs.
  assert (Hq : 0 < S / K) by now apply Rdiv_lt_0_compat.
  destruct (evaluator_closed_form S K T r sigma Call) as [C _]; try lra.
  destruct (evaluator_closed_form S K T r sigma Put) as [P _]; try lra.
  do 4 eexists. split; [exact C|]. split; [exact P|].
  unfold rounded_greeks. cbn [delta]. split; [reflexivity|]. split; [reflexivity|].
  unfold bs_delta. rewrite round_to_minus_one. lra.
Qed.

Lemma rounded_deltas_differ_by_one_witness :
  (0 < 100 /\ 0 < 105 /\ 0 < 1 /\ 0 < 0.25) /\
  exists gc gp dc dp,
    calculate_greeks 100 105 1 0.05 0.25 Call = Ok gc /\
    calculate_greeks 100 105 1 0.05 0.25 Put = Ok gp /\
    delta gc = Fin dc /\ delta gp = Fin dp /\
    dc - dp = 1.
Proof.
  assert (H : 0 < 100 /\ 0 < 105 /\ 0 < 1 /\ 0 < 0.25) by lra.
  split; [exact H|]. destruct H as (A & B & C & D).
  exact (rounded_deltas_differ_by_one 100 105 1 0.05 0.25 A B C D).
Defined.

(** For valid inputs gamma and vega are the same for the call and the
    put of one contract, and neither is negative. *)
Theorem gamma_vega_shared_and_nonnegative (S K T r sigma : R) :
  0 < S -> 0 < K -> 0 < T -> 0 < sigma ->
  exists g v,
    0 <= g /\ 0 <= v /\
    forall ty, exists greeks,
      calculate_greeks S K T r sigma ty = Ok greeks /\
      gamma greeks = Fin g /\ vega greeks = Fin v.
Proof.
  intros HS HK HT Hs.
  assert (Hq : 0 < S / K) by now apply Rdiv_lt_0_compat.
  pose proof (norm_pdf_pos (bs_d1 S K T r sigma)) as Hp.
  assert (HsT : 0 < sqrt T) by now apply sqrt_lt_R0.
  exists (round_to (bs_gamma S K T r sigma) 4), (round_to (bs_vega S K T r sigma) 4).
  split; [| split].
  - apply round_to_nonneg. unfold bs_gamma. apply Rlt_le, Rdiv_lt_0_compat; [exact Hp|].
    apply Rmult_lt_0_compat; [apply Rmult_lt_0_compat|]; assumption.
  - apply round_to_nonneg. unfold bs_vega. apply Rlt_le, Rdiv_lt_0_compat; [| lra].
    apply Rmult_lt_0_compat; [apply Rmult_lt_0_compat|]; assumption.
  - intro ty.
    destruct (evaluator_closed_form S K T r sigma ty) as [G _]; try lra.
    eexists. split; [exact G|]. split; reflexivity.
Qed.

Lemma gamma_vega_shared_and_nonnegative_witness :
  (0 < 100 /\ 0 < 105 /\ 0 < 1 /\ 0 < 0.25) /\
  exists g v,
    0 <= g /\ 0 <= v /\
    forall ty, exists greeks,
      calculate_greeks 100 105 1 0.05 0.25 ty = Ok greeks /\
      gamma greeks = Fin g /\ vega greeks = Fin v.
Proof.
  assert (H : 0 < 100 /\ 0 < 105 /\ 0 < 1 /\ 0 < 0.25) by lra.
  split; [exact H|]. destruct H as (A & B & C & D).
  exact (gamma_vega_shared_and_nonnegative 100 105 1 0.05 0.25 A B C D).
Defined.

(** With time left and a volatility of exactly zero, [_d1] answers 0 and
    the price comes out as half of S - K exp(-r T) for the call and half
    of K exp(-r T) - S for the put, whatever S and K are: the two prices
    are opposite, so one of them is negative unless both are zero. *)
Theorem zero_volatility_price (S K T r : R) :
  0 < T ->
  exists c p,
    _black_scholes_price S K T r 0 Call = Ok (Fin c) /\
    _black_scholes_price S K T r 0 Put = Ok (Fin p) /\
    c = (S - K * exp (- r * T)) / 2 /\
    p = - c.
Proof.
  intro HT. apply Rleb_gt in HT.
  assert (Z : Rleb 0 0 = true) by (apply Rleb_le; lra).
  unfold _black_scholes_price, _d1. rewrite HT, Z. cbn [orb bind].
  rewrite np_sqrt_nonneg by (apply Rleb_gt in HT; lra).
  cbn [fadd fsub fmul fneg cdf np_exp].
  replace (0 + - (0 * sqrt T)) with 0 by ring.
  replace (- 0) with 0 by ring.
  rewrite norm_cdf_0.
  do 2 eexists. split; [reflexivity|]. split; [reflexivity|].
  split; lra.
Qed.

Lemma zero_volatility_price_witness :
  0 < 1 /\
  exists c p,
    _black_scholes_price 90 100 1 0 0 Call = Ok (Fin c) /\
    _black_scholes_price 90 100 1 0 0 Put = Ok (Fin p) /\
    c = (90 - 100 * exp (- 0 * 1)) / 2 /\
    p = - c.
Proof.
  assert (H : 0 < 1) by lra.
  split; [exact H|].
  exact (zero_volatility_price 90 100 1 0 H).
Defined.

End BlackScholesFacts.

(** ** polygon_api.py: implied volatility and Greeks of an S3 row *)

Module S3Greeks.

Import Reals Factorial ROrderedType Lra.
Import Normal NumPy PolygonAPI.
Open Scope R_scope.

(** [self.get_stock_price(ticker, as_of_date) or 100]: a missing or zero
    price is replaced by 100. *)
Definition stock_price_or_default (fetched : option R) : R :=
  match fetched with
  | Some p => match Rcompare p 0 with Eq => 100 | _ => p end
  | None => 100
  end.

(** [T = max(dte / 365.0, 0.001)], with [dte] the days to expiration. *)
Definition time_to_expiration (dte : Z) : R := py_maxR (IZR dte / 365) 0.001.

(** The implied volatility and the Greeks the loader stores for one row. *)
Definition row_iv_greeks (stock_price strike last_price T : R)
    (opt_type : OptionType) : result (R * Greeks) :=
  moneyness <- py_divR (Rabs (strike - stock_price)) stock_price ;;
  if Rltb 0 last_price && Rltb 0 T && Rltb moneyness 0.2 then
    let iv := if Rltb moneyness 0.05 then 0.20 else 0.25 in
    greeks <- calculate_greeks stock_price strike T 0.05 iv opt_type ;;
    Ok (round_to iv 4, greeks)
  else
    Ok (round_to 0.30 4, mkGreeks (Fin 0) (Fin 0) (Fin 0) (Fin 0) (Fin 0)).

End S3Greeks.

Module S3GreeksProofs.

Import Reals Factorial ROrderedType Lra.
Import Normal NumPy PolygonAPI BlackScholesProofs S3Greeks.
Open Scope R_scope.

Lemma Rround_half_even_IZR (k : Z) : Rround_half_even (IZR k) = k.
Proof.
  unfold Rround_half_even.
  assert (E : Int_part (IZR k) = k) by (symmetry; apply Int_part_spec; lra).
  rewrite E.
  destruct (Rcompare_spec (IZR k - IZR k) (1 / 2)); [lra | reflexivity | lra].
Qed.

Lemma round_to_exact (k : Z) (x : R) : x * 10 ^ 4 = IZR k -> round_to x 4 = x.
Proof.
  intro E. unfold round_to. rewrite E, Rround_half_even_IZR, <- E.
  field; simpl; lra.
Qed.

Lemma time_to_expiration_positive (dte : Z) : 0.001 <= time_to_expiration dte.
Proof.
  unfold time_to_expiration. rewrite py_maxR_Rmax. apply Rmax_r.
Qed.

Lemma stock_price_or_default_positive (fetched : option R) :
  (forall p, fetched = Some p -> 0 <= p) -> 0 < stock_price_or_default fetched.
Proof.
  intro H. unfold stock_price_or_default. destruct fetched as [p |]; [| lra].
  specialize (H p eq_refl).
  destruct (Rcompare_spec p 0); lra.
Qed.

(** With a fetched stock price that is not negative, the loader never
    hands the evaluator an invalid input: the time to expiration is at
    least 0.001, and a row gets Greeks only when its last price is
    positive and its strike within 20 percent of the stock price, hence
    positive.  The row then carries an implied volatility of 0.2 or 0.25
    and the rounded closed-form Greeks (no NaN, nothing raised); every
    other row carries 0.3 and all-zero Greeks. *)
Theorem s3_row_inputs_valid
    (fetched : option R) (strike last_price : R) (dte : Z) (ty : OptionType) :
  (forall p, fetched = Some p -> 0 <= p) ->
  let S := stock_price_or_default fetched in
  let T := time_to_expiration dte in
  0 < S /\ 0.001 <= T /\
  exists iv greeks,
    row_iv_greeks S strike last_price T ty = Ok (iv, greeks) /\
    ((iv = 0.3 /\
      greeks = mkGreeks (Fin 0) (Fin 0) (Fin 0) (Fin 0) (Fin 0) /\
      ~ (0 < last_price /\ Rabs (strike - S) < 0.2 * S))
     \/
     ((iv = 0.2 /\ Rabs (strike - S) < 0.05 * S \/
       iv = 0.25 /\ 0.05 * S <= Rabs (strike - S)) /\
      0 < last_price /\ 0 < strike /\ Rabs (strike - S) < 0.2 * S /\
      greeks = rounded_greeks S strike T 0.05 iv ty)).
Proof.
  intro H. cbv zeta.
  pose proof (stock_price_or_default_positive fetched H) as HS.
  pose proof (time_to_expiration_positive dte) as HT.
  set (S := stock_price_or_default fetched) in *.
  set (T := time_to_expiration dte) in *.
  split; [exact HS|]. split; [exact HT|].
  unfold row_iv_greeks. rewrite py_divR_nonzero by lra. cbn [bind].
  replace 0.20 with 0.2 by lra. replace 0.30 with 0.3 by lra.
  assert (R2 : round_to 0.2 4 = 0.2) by (apply (round_to_exact 2000); simpl; lra).
  assert (R25 : round_to 0.25 4 = 0.25) by (apply (round_to_exact 2500); simpl; lra).
  assert (R3 : round_to 0.3 4 = 0.3) by (apply (round_to_exact 3000); simpl; lra).
  assert (M : forall c, Rabs (strike - S) / S < c <-> Rabs (strike - S) < c * S).
  { intro c. split; intro L.
    - apply (Rmult_lt_compat_r S) in L; [| exact HS].
      unfold Rdiv in L. rewrite Rmult_assoc, Rinv_l, Rmult_1_r in L; lra.
    - apply (Rmult_lt_reg_r S); [exact HS|].
      unfold Rdiv. rewrite Rmult_assoc, Rinv_l, Rmult_1_r; lra. }
  assert (Tpos : Rltb 0 T = true) by (apply Rltb_lt; lra).
  rewrite Tpos, andb_true_r.
  destruct (Rltb 0 last_price) eqn:Lp; cbn [andb].
  2:{ apply Rltb_ge in Lp. do 2 eexists. split; [reflexivity|].
      left. rewrite R3. repeat split. lra. }
  apply Rltb_lt in Lp.
  destruct (Rltb (Rabs (strike - S) / S) 0.2) eqn:Near.
  2:{ apply Rltb_ge in Near. do 2 eexists. split; [reflexivity|].
      left. rewrite R3. repeat split. intros [_ F]. apply M in F. lra. }
  apply Rltb_lt in Near. pose proof (proj1 (M _) Near) as Near'.
  assert (HK : 0 < strike).
  { destruct (Rle_or_lt strike 0) as [N | P]; [| exact P].
    rewrite Rabs_left1 in Near' by lra. lra. }
  assert (Hq : 0 < S / strike) by now apply Rdiv_lt_0_compat.
  destruct (Rltb (Rabs (strike - S) / S) 0.05) eqn:Atm.
  - apply Rltb_lt in Atm. apply M in Atm.
    destruct (evaluator_closed_form S strike T 0.05 0.2 ty) as [G _]; try lra.
    rewrite G. cbn [bind]. do 2 eexists. split; [reflexivity|].
    right. rewrite R2. repeat split; auto.
  - apply Rltb_ge in Atm.
    assert (A : 0.05 * S <= Rabs (strike - S)).
    { destruct (Rle_or_lt (0.05 * S) (Rabs (strike - S))) as [L | L]; [exact L|].
      apply M in L. lra. }
    destruct (evaluator_closed_form S strike T 0.05 0.25 ty) as [G _]; try lra.
    rewrite G. cbn [bind]. do 2 eexists. split; [reflexivity|].
    right. rewrite R25. repeat split; auto.
Qed.

Lemma s3_row_inputs_valid_witness :
  (forall p, Some 100 = Some p -> 0 <= p) /\
  let S := stock_price_or_default (Some 100) in
  let T := time_to_expiration 30 in
  0 < S /\ 0.001 <= T /\
  exists iv greeks, row_iv_greeks S 102 1.5 T Call = Ok (iv, greeks).
Proof.
  assert (H : forall p : R, Some 100 = Some p -> 0 <= p).
  { intros p E. injection E as <-. lra. }
  split; [exact H|]. cbv zeta.
  destruct (s3_row_inputs_valid (Some 100) 102 1.5 30 Call H)
    as (A & B & iv & g & E & _).
  split; [exact A|]. split; [exact B|]. exists iv, g. exact E.
Defined.

End S3GreeksProofs.

(** ** data_formatter.py: option symbols *)

Module SymbolParser.

Import Ascii String.
Import PyList.
Open Scope char_scope.

(** A Python string as its list of characters; symbols are ASCII. *)
Definition pystr : Type := list ascii.

(** [c.isdigit()] on an ASCII character. *)
Definition isdigit (c : ascii) : bool :=
  let n := nat_of_ascii c in (48 <=? n)%nat && (n <=? 57)%nat.

(** [s.startswith(prefix)]. *)
Fixpoint startswith (prefix s : pystr) : bool :=
  match prefix, s with
  | [], _ => true
  | p :: prefix', c :: s' => Ascii.eqb p c && startswith prefix' s'
  | _ :: _, [] => false
  end.

(** The loop that looks for the end of the ticker: the position of the
    first digit, counted from [i]; 0 when there is no digit. *)
Fixpoint ticker_end_from (i : nat) (parts : pystr) : nat :=
  match parts with
  | [] => O
  | c :: t => if isdigit c then i else ticker_end_from (S i) t
  end.

(** What [float()] can return. *)
Inductive pyfloat : Type :=
| PyNum (q : Q)
| PyInf
| PyNegInf
| PyNaN.

Definition div1000 (f : pyfloat) : pyfloat :=
  match f with
  | PyNum q => PyNum (q / 1000)
  | other => other
  end.

(** The dictionary [parse_option_symbol] returns. *)
Record ParsedSymbol : Type := mkParsed {
  ticker : pystr;
  expiration : pystr;
  type : OptionType;
  strike : pyfloat;
  symbol : pystr
}.

Section Builtins.

(** The two library calls of the parser, each answering [None] where
    the call raises: [datetime.strptime(s, "%y%m%d")] followed by
    [.strftime("%Y-%m-%d")], and [float(s)]. *)
Variable strptime_strftime : pystr -> option pystr.
Variable py_float : pystr -> option pyfloat.

(** [parse_option_symbol(symbol)]. *)
Definition parse_option_symbol (symbol : pystr) : option ParsedSymbol :=
  if negb (startswith ["O"; ":"] symbol) then None
  else
    let parts := py_slice symbol 2 (Z.of_nat (List.length symbol)) in
    let ticker_end := ticker_end_from 0 parts in
    if (ticker_end =? 0)%nat then None
    else
      let ticker := py_slice parts 0 (Z.of_nat ticker_end) in
      let remaining :=
        py_slice parts (Z.of_nat ticker_end) (Z.of_nat (List.length parts)) in
      if (List.length remaining <? 7)%nat then None
      else
        let date_str := py_slice remaining 0 6 in
        let option_type := nth 6 remaining " " in
        let strike_str := py_slice remaining 7 15 in
        match strptime_strftime date_str with
        | None => None
        | Some expiration =>
            match py_float strike_str with
            | None => None
            | Some f =>
                Some (mkParsed ticker expiration
                        (if Ascii.eqb option_type "C" then Call else Put)
                        (div1000 f) symbol)
            end
        end.

End Builtins.

End SymbolParser.

Module SymbolParserProofs.

Import Ascii String.
Import PyList SymbolParser.
Open Scope char_scope.

Lemma py_slice_nat {A : Type} (l : list A) (a b : nat) :
  py_slice l (Z.of_nat a) (Z.of_nat b)
  = firstn (Nat.min b (List.length l) - Nat.min a (List.length l))
           (skipn (Nat.min a (List.length l)) l).
Proof.
  unfold py_slice, slice_bound.
  destruct (Z.ltb_spec (Z.of_nat a) 0); [lia|].
  destruct (Z.ltb_spec (Z.of_nat b) 0); [lia|].
  f_equal; [| f_equal]; lia.
Qed.

Lemma firstn_min_length {A : Type} (n : nat) (l : list A) :
  firstn (Nat.min n (List.length l)) l = firstn n l.
Proof.
  destruct (Nat.le_ge_cases n (List.length l)) as [H | H].
  - now rewrite Nat.min_l.
  - rewrite Nat.min_r by exact H. rewrite firstn_all.
    symmetry. now apply firstn_all2.
Qed.

(** The three slices of the parser, for a text split at the ticker. *)
Lemma slice_from_two (x : pystr) :
  py_slice ("O" :: ":" :: x) 2 (Z.of_nat (List.length ("O" :: ":" :: x))) = x.
Proof.
  change 2%Z with (Z.of_nat 2). rewrite py_slice_nat. cbn [List.length].
  rewrite Nat.min_id, Nat.min_l by lia. cbn [skipn].
  replace (S (S (List.length x)) - 2)%nat with (List.length x) by lia.
  apply firstn_all.
Qed.

Lemma slice_ticker (tk rest : pystr) :
  py_slice (tk ++ rest) 0 (Z.of_nat (List.length tk)) = tk.
Proof.
  change 0%Z with (Z.of_nat 0). rewrite py_slice_nat, length_app.
  rewrite Nat.min_0_l, Nat.min_l by lia. cbn [skipn]. rewrite Nat.sub_0_r.
  rewrite firstn_app, Nat.sub_diag, firstn_all. cbn [firstn]. apply app_nil_r.
Qed.

Lemma slice_remaining (tk rest : pystr) :
  py_slice (tk ++ rest) (Z.of_nat (List.length tk))
           (Z.of_nat (List.length (tk ++ rest))) = rest.
Proof.
  rewrite py_slice_nat, length_app.
  rewrite Nat.min_id, Nat.min_l by lia.
  rewrite skipn_app, Nat.sub_diag, skipn_all. cbn [skipn app].
  replace (List.length tk + List.length rest - List.length tk)%nat
    with (List.length rest) by lia.
  apply firstn_all.
Qed.

Lemma slice_date (rest : pystr) :
  py_slice rest 0 6 = firstn 6 rest.
Proof.
  change 0%Z with (Z.of_nat 0). change 6%Z with (Z.of_nat 6).
  rewrite py_slice_nat, Nat.min_0_l, Nat.sub_0_r. cbn [skipn].
  apply firstn_min_length.
Qed.

Lemma slice_strike (rest : pystr) :
  (7 <= List.length rest)%nat ->
  py_slice rest 7 15 = firstn 8 (skipn 7 rest).
Proof.
  intro H. change 7%Z with (Z.of_nat 7). change 15%Z with (Z.of_nat 15).
  rewrite py_slice_nat. rewrite (Nat.min_l 7) by exact H.
  rewrite <- (firstn_min_length 8 (skipn 7 rest)), length_skipn.
  f_equal. lia.
Qed.

(** The end of the ticker, when letters are followed by a digit. *)
Lemma ticker_end_found (tk : pystr) (d : ascii) (rest : pystr) (i : nat) :
  Forall (fun c => isdigit c = false) tk -> isdigit d = true ->
  ticker_end_from i (tk ++ d :: rest) = (i + List.length tk)%nat.
Proof.
  intros Ht Hd. revert i. induction Ht as [| c t Hc Ht IH]; intro i.
  - cbn. rewrite Hd. lia.
  - cbn [app ticker_end_from List.length]. rewrite Hc, IH. lia.
Qed.

(** A position other than zero answered by the loop splits the text
    into characters that are no digits and a rest that begins with one. *)
Lemma ticker_end_split (parts : pystr) (i k : nat) :
  ticker_end_from i parts = k -> (k <> 0)%nat ->
  exists tk d rest,
    parts = tk ++ d :: rest /\
    Forall (fun c => isdigit c = false) tk /\ isdigit d = true /\
    k = (i + List.length tk)%nat.
Proof.
  revert i. induction parts as [| c t IH]; intros i E Hk; cbn in E; [congruence|].
  destruct (isdigit c) eqn:D.
  - exists [], c, t. cbn. repeat split; auto; lia.
  - destruct (IH (S i) E Hk) as (tk & d & rest & -> & F & Hd & ->).
    exists (c :: tk), d, rest. cbn. repeat split; auto; lia.
Qed.

Section Builtins.

Variable strptime_strftime : pystr -> option pystr.
Variable py_float : pystr -> option pyfloat.

Let parse := parse_option_symbol strptime_strftime py_float.

(** A symbol made of "O:", a ticker without digits and not empty, and a
    rest of at least seven characters that begins with a digit is read
    as: that ticker; the date made from the first six characters of the
    rest; a call when the seventh is "C" and a put for any other
    character; the number read from the up to eight characters after it,
    divided by 1000.  Anything after those fifteen characters is
    ignored.  The result is [None] exactly when one of the two library
    calls raises. *)
Theorem parse_well_formed_symbol (tk rest : pystr) :
  tk <> [] ->
  Forall (fun c => isdigit c = false) tk ->
  (exists d rest', rest = d :: rest' /\ isdigit d = true) ->
  (7 <= List.length rest)%nat ->
  let sym := "O" :: ":" :: tk ++ rest in
  parse sym =
    match strptime_strftime (firstn 6 rest),
          py_float (firstn 8 (skipn 7 rest)) with
    | Some date, Some f =>
        Some (mkParsed tk date
                (if Ascii.eqb (nth 6 rest " ") "C" then Call else Put)
                (div1000 f) sym)
    | _, _ => None
    end.
Proof.
  intros Hne Hletters (d & rest' & -> & Hd) Hlen. cbv zeta.
  unfold parse, parse_option_symbol.
  cbn [startswith Ascii.eqb Bool.eqb andb negb].
  rewrite slice_from_two.
  rewrite (ticker_end_found tk d rest' 0 Hletters Hd). cbn [Nat.add].
  destruct (Nat.eqb_spec (List.length tk) 0) as [Z | _].
  { destruct tk; [congruence | discriminate Z]. }
  rewrite slice_ticker, slice_remaining.
  destruct (Nat.ltb_spec (List.length (d :: rest')) 7) as [L | _]; [lia|].
  rewrite slice_date, slice_strike by exact Hlen.
  destruct (strptime_strftime (firstn 6 (d :: rest'))); [| reflexivity].
  destruct (py_float (firstn 8 (skipn 7 (d :: rest')))); reflexivity.
Qed.

(** Whatever the parser accepts has that shape: the symbol begins with
    "O:", the ticker returned is not empty, holds no digit and is
    followed by a digit, at least seven characters follow it, both
    library calls succeeded on their slices, and the symbol is returned
    unchanged. *)
Theorem parse_accepts_only_well_formed (sym : pystr) (r : ParsedSymbol) :
  parse sym = Some r ->
  exists rest,
    sym = "O" :: ":" :: ticker r ++ rest /\
    ticker r <> [] /\
    Forall (fun c => isdigit c = false) (ticker r) /\
    (exists d rest', rest = d :: rest' /\ isdigit d = true) /\
    (7 <= List.length rest)%nat /\
    strptime_strftime (firstn 6 rest) = Some (expiration r) /\
    (exists f, py_float (firstn 8 (skipn 7 rest)) = Some f /\ strike r = div1000 f) /\
    type r = (if Ascii.eqb (nth 6 rest " ") "C" then Call else Put) /\
    symbol r = sym.
Proof.
  unfold parse, parse_option_symbol. intro H.
  destruct sym as [| c0 [| c1 x]]; cbn [startswith] in H;
    try (rewrite ?andb_false_r in H; discriminate H).
  destruct (Ascii.eqb_spec "O" c0) as [<- |]; [| discriminate H].
  destruct (Ascii.eqb_spec ":" c1) as [<- |]; [| discriminate H].
  cbn [andb negb] in H. rewrite slice_from_two in H.
  destruct (Nat.eqb_spec (ticker_end_from 0 x) 0) as [| Hk]; [discriminate H|].
  destruct (ticker_end_split x 0 _ eq_refl Hk) as (tk & d & rest & -> & F & Hd & K).
  rewrite K in H. cbn [Nat.add] in H.
  rewrite slice_ticker, slice_remaining in H.
  destruct (Nat.ltb_spec (List.length (d :: rest)) 7) as [| L]; [discriminate H|].
  rewrite slice_date, slice_strike in H by exact L.
  destruct (strptime_strftime (firstn 6 (d :: rest))) as [date |] eqn:Ed;
    [| discriminate H].
  destruct (py_float (firstn 8 (skipn 7 (d :: rest)))) as [f |] eqn:Ef;
    [| discriminate H].
  injection H as <-. cbn [ticker expiration type strike symbol].
  exists (d :: rest). repeat split; eauto.
  intro E. subst tk. apply Hk. rewrite K. reflexivity.
Qed.

End Builtins.

(** A reader of plain digit strings and a converter of six digits into a
    date of the 2000s, for a sample run of the parser. *)
Definition digit_value (c : ascii) : Z := (Z.of_nat (nat_of_ascii c) - 48)%Z.

Definition read_digits (s : pystr) : option pyfloat :=
  match s with
  | [] => None
  | _ =>
      if forallb isdigit s
      then Some (PyNum (inject_Z (fold_left (fun (acc : Z) c =>
                                              (acc * 10 + digit_value c)%Z) s 0%Z)))
      else None
  end.

Definition six_digits_to_iso (s : pystr) : option pystr :=
  match s with
  | [y1; y2; m1; m2; d1; d2] =>
      if forallb isdigit s
      then Some ["2"; "0"; y1; y2; "-"; m1; m2; "-"; d1; d2]
      else None
  | _ => None
  end.

Lemma parse_well_formed_symbol_witness :
  let tk := list_ascii_of_string "AAPL" in
  let rest := list_ascii_of_string "240119C00175000" in
  tk <> [] /\
  Forall (fun c => isdigit c = false) tk /\
  (exists d rest', rest = d :: rest' /\ isdigit d = true) /\
  (7 <= List.length rest)%nat /\
  parse_option_symbol six_digits_to_iso read_digits
    (list_ascii_of_string "O:AAPL240119C00175000")
  = Some (mkParsed tk (list_ascii_of_string "2024-01-19") Call
            (PyNum (175000 / 1000))
            (list_ascii_of_string "O:AAPL240119C00175000")).
Proof.
  cbv zeta.
  assert (A : list_ascii_of_string "AAPL" <> []) by discriminate.
  assert (B : Forall (fun c => isdigit c = false) (list_ascii_of_string "AAPL"))
    by (repeat constructor).
  assert (C : exists d rest',
             list_ascii_of_string "240119C00175000" = d :: rest' /\ isdigit d = true)
    by (do 2 eexists; split; reflexivity).
  assert (D : (7 <= List.length (list_ascii_of_string "240119C00175000"))%nat)
    by (cbn; lia).
  split; [exact A|]. split; [exact B|]. split; [exact C|]. split; [exact D|].
  pose proof (parse_well_formed_symbol six_digits_to_iso read_digits _ _ A B C D) as P.
  cbv zeta in P. exact P.
Defined.

Lemma parse_accepts_only_well_formed_witness :
  let sym := list_ascii_of_string "O:SPY250620P00500000" in
  let r := mkParsed (list_ascii_of_string "SPY") (list_ascii_of_string "2025-06-20")
                    Put (PyNum (500000 / 1000)) sym in
  parse_option_symbol six_digits_to_iso read_digits sym = Some r /\
  exists rest,
    sym = "O" :: ":" :: ticker r ++ rest /\ (7 <= List.length rest)%nat.
Proof.
  cbv zeta.
  set (sym := list_ascii_of_string "O:SPY250620P00500000").
  set (r := mkParsed (list_ascii_of_string "SPY") (list_ascii_of_string "2025-06-20")
                     Put (PyNum (500000 / 1000)) sym).
  assert (E : parse_option_symbol six_digits_to_iso read_digits sym = Some r)
    by reflexivity.
  split; [exact E|].
  destruct (parse_accepts_only_well_formed six_digits_to_iso read_digits sym r E)
    as (rest & Es & _ & _ & _ & L & _).
  exists rest. split; [exact Es | exact L].
Defined.

End SymbolParserProofs.

(** ** The quote estimated inline by the S3 loader *)

Module InlineQuoteProofs.

Import PyNum RoundingFacts QuoteProofs.
Open Scope Q_scope.

(** The bid and the ask before the row is built. *)
Lemma inline_edges (last_price : Q) (volume : Z) :
  0 < last_price ->
  exists spread,
    2 # 100 <= spread <= 10 # 100 /\
    S3Chain.inline_bid_ask last_price volume
    = (py_round (py_max (1 # 100) (last_price - last_price * spread / 2)) 2,
       py_round (last_price + last_price * spread / 2) 2).
Proof.
  intro H. unfold S3Chain.inline_bid_ask. apply Qltb_lt in H. rewrite H.
  destruct (1000 <? volume)%Z;
    [exists (2 # 100); split; [split; discriminate | reflexivity]|].
  destruct (100 <? volume)%Z;
    [exists (5 # 100) | exists (10 # 100)];
    (split; [split; discriminate | reflexivity]).
Qed.

(** The loader's own estimate, which rounds after lifting the bid to
    0.01: for every positive last price the stored bid is at least 0.01;
    it is not above the stored ask once the last price is at least one
    cent, and it is above the ask (which is 0) for a last price below
    0.4 cent. *)
Theorem inline_estimate_quote (last_price : Q) (volume : Z) :
  0 < last_price ->
  let quote := S3Chain.inline_bid_ask last_price volume in
  1 # 100 <= fst quote /\
  (1 # 100 <= last_price -> fst quote <= snd quote) /\
  (last_price < 4 # 1000 -> snd quote == 0).
Proof.
  intro H. cbv zeta.
  destruct (inline_edges last_price volume H) as [spread [[P1 P2] E]].
  rewrite E. cbn [fst snd].
  destruct (half_spread_bounds last_price spread) as [Hh Hk]; [lra | split; lra |].
  assert (C : py_round (1 # 100) 2 == 1 # 100) by reflexivity.
  split; [| split].
  - rewrite <- C at 1. apply py_round_mono. apply py_max_ge_l.
  - intro L. apply py_round_mono. apply py_max_le; lra.
  - intro L.
    assert (Z0 : py_round 0 2 == 0) by reflexivity.
    assert (Z1 : py_round (49 # 10000) 2 == 0) by reflexivity.
    apply Qle_antisym.
    + rewrite <- Z1. apply py_round_mono. lra.
    + rewrite <- Z0. apply py_round_mono. lra.
Qed.

Lemma inline_estimate_quote_witness :
  0 < 150 # 100 /\
  let quote := S3Chain.inline_bid_ask (150 # 100) 500 in
  1 # 100 <= fst quote /\ fst quote <= snd quote.
Proof.
  assert (H : 0 < 150 # 100) by reflexivity.
  split; [exact H|]. cbv zeta.
  destruct (inline_estimate_quote (150 # 100) 500 H) as (A & B & _).
  split; [exact A|]. apply B. discriminate.
Defined.

End InlineQuoteProofs.
